(** * Production planning notebook (master.ipynb): model and properties

    The notebook draws a table of processing hours from NumPy's global
    random generator, reshapes it into a nested list, builds a PuLP
    maximisation problem over four integer variables, hands it to CBC and
    prints the result.  Each cell is embedded below as a function; the
    global random state is passed explicitly; Python exceptions
    (IndexError, KeyError, ValueError) are [None]. *)

From Stdlib Require Import ZArith QArith Qround List String Ascii Bool Lia Lqa.
From Stdlib Require Import DecimalString.
Import ListNotations.

Open Scope Z_scope.

(** ** Small option monad for the raising paths *)

Definition obind {A B : Type} (o : option A) (f : A -> option B) : option B :=
  match o with
  | Some a => f a
  | None => None
  end.

Notation "'let?' x ':=' o 'in' k" := (obind o (fun x => k))
  (at level 10, x pattern, o at level 100, k at level 200).

(** ** NumPy: rounding, casting, the global generator *)

Module NumPy.

(** [np.round(x, 0)] is [rint]: to the nearest integer, ties to even. *)
Definition round (x : Q) : Q :=
  let f := Qfloor x in
  match (x - inject_Z f ?= 1 # 2)%Q with
  | Lt => inject_Z f
  | Gt => inject_Z (f + 1)
  | Eq => if Z.even f then inject_Z f else inject_Z (f + 1)
  end.

(** Arithmetic on doubles.  A double is modelled as the rational it
    denotes, and an operation as the exact operation followed by [fl]:
    [fl q] is the IEEE 754 binary64 value of the real result [q], the
    nearest number with a 53-bit significand, ties to the even
    significand.  Overflow and subnormal results are not modelled; what
    the notebook computes from a draw k / 2^53 is 0 or lies between
    2^-53 and 16.  [binade q] is the exponent [e] of a positive [q],
    with [2^e <= q < 2^(e+1)]. *)
Definition pow2_le (e n d : Z) : bool :=
  if 0 <=? e then 2 ^ e * d <=? n else d <=? n * 2 ^ (- e).

Definition binade (q : Q) : Z :=
  let n := Qnum q in
  let d := Zpos (Qden q) in
  let e0 := Z.log2 n - Z.log2 d in
  if pow2_le e0 n d then e0 else e0 - 1.

Definition fl_pos (r : Q) : Q :=
  let e := binade r in
  if e <=? 52
  then (round (r * inject_Z (2 ^ (52 - e))) / inject_Z (2 ^ (52 - e)))%Q
  else (round (r / inject_Z (2 ^ (e - 52))) * inject_Z (2 ^ (e - 52)))%Q.

Definition fl (q : Q) : Q :=
  let r := Qred q in
  match Qnum r with
  | Z0 => 0%Q
  | Zpos _ => Qred (fl_pos r)
  | Zneg _ => Qred (- fl_pos (- r))
  end.

(** [.astype(int)]: the C cast, towards zero. *)
Definition astype_int (x : Q) : Z :=
  if Qle_bool 0 x then Qfloor x else Qceiling x.

(** [np.reshape(a, (rows, cols))] of a flat array, row-major;
    a size mismatch raises. *)
Fixpoint chunks {A : Type} (rows cols : nat) (a : list A) : list (list A) :=
  match rows with
  | O => []
  | S r => firstn cols a :: chunks r cols (skipn cols a)
  end.

Definition reshape {A : Type} (a : list A) (rows cols : nat)
  : option (list (list A)) :=
  if Nat.eqb (List.length a) (rows * cols) then Some (chunks rows cols a)
  else None.

(** The bit generator behind [np.random]: its state, how an accepted
    seed initialises it, and one draw of [random_sample], a number of
    [0, 1) (NumPy returns the double k / 2^53). *)
Record BitGenerator : Type := {
  rng : Type;
  init_by_seed : Z -> rng;
  random_sample : rng -> Q * rng;
  random_sample_range :
    forall g, (0 <= fst (random_sample g) /\ fst (random_sample g) < 1)%Q
}.

Section Generator.
Variable G : BitGenerator.

(** [np.random.seed(s)]: the global state is replaced; a seed outside
    0 .. 2^32 - 1 raises (ValueError). *)
Definition seed (s : Z) (_ : rng G) : option (rng G) :=
  if ((0 <=? s) && (s <? 2 ^ 32))%bool then Some (init_by_seed G s)
  else None.

(** [np.random.uniform(low, high, size)]:
    [low + (high - low) * random_sample()] for each element, every
    operation on doubles. *)
Fixpoint uniform (low high : Q) (size : nat) (g : rng G)
  : list Q * rng G :=
  match size with
  | O => ([], g)
  | S n =>
      let (x, g1) := random_sample G g in
      let (xs, g2) := uniform low high n g1 in
      (fl (low + fl (fl (high - low) * x)) :: xs, g2)
  end.
End Generator.

End NumPy.

(** ** pandas: the frames the notebook builds *)

Module Pandas.

(** A column label; after [MultiIndex.from_product] it is a pair
    (site, product), before that the site is empty. *)
Definition label : Type := (string * string)%type.

Definition label_eqb (a b : label) : bool :=
  (String.eqb (fst a) (fst b) && String.eqb (snd a) (snd b))%bool.

Record DataFrame : Type := {
  index : list string;
  columns : list label;
  values : list (list Z)
}.

(** [pd.DataFrame(data, columns = cols, index = idx)] *)
Definition mk_frame (data : list (list Z)) (cols idx : list string)
  : DataFrame :=
  {| index := idx;
     columns := map (fun c => (EmptyString, c)) cols;
     values := data |}.

(** [df.columns = pd.MultiIndex.from_product([[site], df.columns])] *)
Definition with_site (site : string) (df : DataFrame) : DataFrame :=
  {| index := index df;
     columns := map (fun c => (site, snd c)) (columns df);
     values := values df |}.

Fixpoint zip_app (a b : list (list Z)) : list (list Z) :=
  match a, b with
  | ra :: a', rb :: b' => (ra ++ rb) :: zip_app a' b'
  | _, _ => []
  end.

(** [pd.concat([a, b], axis = 1)] for two frames with the same index,
    as in the notebook: the rows are joined side by side. *)
Definition concat_axis1 (a b : DataFrame) : DataFrame :=
  {| index := index a;
     columns := columns a ++ columns b;
     values := zip_app (values a) (values b) |}.

(** A row as [iterrows] yields it: the row label and a Series, the
    values keyed by the column labels. *)
Definition Series : Type := list (label * Z).

Definition iterrows (df : DataFrame) : list (string * Series) :=
  combine (index df) (map (combine (columns df)) (values df)).

(** [series[col]]: the value under a label; KeyError when absent. *)
Fixpoint series_get (s : Series) (col : label) : option Z :=
  match s with
  | [] => None
  | (l, v) :: s' => if label_eqb l col then Some v else series_get s' col
  end.

End Pandas.

(** [enumerate(xs)] *)
Definition enumerate {A : Type} (xs : list A) : list (nat * A) :=
  combine (seq 0 (List.length xs)) xs.

(** A loop over a list whose body may raise. *)
Fixpoint for_each {A S : Type} (body : S -> A -> option S) (xs : list A)
  (s : S) : option S :=
  match xs with
  | [] => Some s
  | x :: xs' => let? s' := body s x in for_each body xs' s'
  end.

(** ** Cells 2 to 4: seeding, the production-hours table, the nested list *)

Module Hours.
Import NumPy Pandas.
Open Scope string_scope.

Definition products : list string := ["T-shirts"; "Jeans"].
Definition processes : list string := ["Cutting"; "Sewing"].
Definition Besiktas : string := "Beşiktaş".
Definition Davutpasa : string := "Davutpaşa".

(** The index convention of [constraints[i][j][k]] given in the
    notebook's first cell: i is the process, j the site, k the product. *)
Inductive Process : Type := Cutting | Sewing.
Inductive Site : Type := AtBesiktas | AtDavutpasa.
Inductive Product : Type := Tshirts | Jeans.

Definition process_index (p : Process) : nat :=
  match p with Cutting => 0 | Sewing => 1 end.
Definition site_index (s : Site) : nat :=
  match s with AtBesiktas => 0 | AtDavutpasa => 1 end.
Definition product_index (x : Product) : nat :=
  match x with Tshirts => 0 | Jeans => 1 end.

Definition process_label (p : Process) : string :=
  match p with Cutting => "Cutting" | Sewing => "Sewing" end.
Definition site_label (s : Site) : string :=
  match s with AtBesiktas => Besiktas | AtDavutpasa => Davutpasa end.
Definition product_label (x : Product) : string :=
  match x with Tshirts => "T-shirts" | Jeans => "Jeans" end.

(** One table entry as a function of the [random_sample] draw [x]
    behind it: [uniform] scales it to [1 + (10 - 1) * x] in doubles,
    then [np.round] and [astype(int)]. *)
Definition entry (x : Q) : Z :=
  astype_int (round (fl (1 + fl (fl (10 - 1) * x)))).

Section Cells.
Variable G : BitGenerator.

(** The state after [n] draws, and the [i]-th draw from a state. *)
Fixpoint advance (n : nat) (g : rng G) : rng G :=
  match n with
  | O => g
  | S m => advance m (snd (random_sample G g))
  end.

Definition sample_at (g : rng G) (i : nat) : Q :=
  fst (random_sample G (advance i g)).

(** Cell 2: [np.random.seed(21506050)], the seed kept as an argument. *)
Definition cell2_with (s : Z) (g : rng G) : option (rng G) := seed G s g.
Definition cell2 : rng G -> option (rng G) := cell2_with 21506050.

(** [np.round(np.random.uniform(low = 1, high = 10, size = 4), 0)
       .astype(int)] *)
Definition random_hours (g : rng G) : list Z * rng G :=
  let (us, g1) := uniform G 1 10 4 g in
  (map (fun u => astype_int (round u)) us, g1).

(** Cell 3, line by line: four draws reshaped (2, 2) for Beşiktaş, rows
    labelled by process and columns by (site, product); four more for
    Davutpaşa; the two frames joined side by side. *)
Definition cell3 (g : rng G) : option (DataFrame * rng G) :=
  let (RandomFtoD1, g1) := random_hours g in
  let? RandomFtoD2 := reshape RandomFtoD1 2 2 in
  let BesiktasHour :=
    with_site Besiktas (mk_frame RandomFtoD2 products processes) in
  let (RandomDtoS1, g2) := random_hours g1 in
  let? RandomDtoS2 := reshape RandomDtoS1 2 2 in
  let DavutpasaHour :=
    with_site Davutpasa (mk_frame RandomDtoS2 products processes) in
  let production_hours := concat_axis1 BesiktasHour DavutpasaHour in
  Some (production_hours, g2).
End Cells.

(** Cell 4.  The state of the loops is the pair
    ([constraint], [sub_constraint]); [sub_constraint] is rebound to a
    fresh list at every even [j], so the list appended to [constraint]
    at an odd [j] is never changed afterwards.  It is not reset between
    rows, hence it is threaded through the outer loop as well. *)
Definition inner_body (row : Series)
  (st : list (list Z) * list Z) (jc : nat * label)
  : option (list (list Z) * list Z) :=
  let '(constraint, sub_constraint) := st in
  let '(j, col) := jc in
  let sub_constraint :=
    if Nat.eqb (j mod 2) 0 then [] else sub_constraint in
  let? v := series_get row col in
  let sub_constraint := (sub_constraint ++ [v])%list in
  let constraint :=
    if Nat.eqb (j mod 2) 1 then (constraint ++ [sub_constraint])%list
    else constraint in
  Some (constraint, sub_constraint).

Definition outer_body (cols : list label)
  (st : list (list (list Z)) * list Z) (ir : nat * (string * Series))
  : option (list (list (list Z)) * list Z) :=
  let '(constraints, sub_constraint) := st in
  let '(_, row) := ir in
  let? (constraint, sub_constraint) :=
    for_each (inner_body (snd row)) (enumerate cols) ([], sub_constraint) in
  Some ((constraints ++ [constraint])%list, sub_constraint).

Definition cell4 (production_hours : DataFrame)
  : option (list (list (list Z))) :=
  let? (constraints, _) :=
    for_each (outer_body (columns production_hours))
      (enumerate (iterrows production_hours)) ([], []) in
  Some constraints.

(** The frame of cell 3 for eight given entries, in column order
    (Beşiktaş T-shirts, Beşiktaş Jeans, Davutpaşa T-shirts,
    Davutpaşa Jeans), rows Cutting and Sewing. *)
Definition hours_frame (cutting sewing : list Z) : DataFrame :=
  {| index := processes;
     columns := [(Besiktas, "T-shirts"); (Besiktas, "Jeans");
                 (Davutpasa, "T-shirts"); (Davutpasa, "Jeans")];
     values := [cutting; sewing] |}.

(** [constraints[i][j][k]]; IndexError is [None]. *)
Definition at3 (constraints : list (list (list Z))) (i j k : nat)
  : option Z :=
  let? plane := nth_error constraints i in
  let? line := nth_error plane j in
  nth_error line k.

(** [production_hours.loc[process, (site, product)]] *)
Fixpoint row_get (rows : list (string * Series)) (process : string)
  : option Series :=
  match rows with
  | [] => None
  | (l, r) :: rows' =>
      if String.eqb l process then Some r else row_get rows' process
  end.

Definition loc (df : DataFrame) (process : string) (col : label)
  : option Z :=
  let? row := row_get (iterrows df) process in
  series_get row col.

End Hours.

(** ** PuLP: variables, affine expressions, constraints, problems *)

Module PuLP.
Local Open Scope Q_scope.

Inductive LpCategory : Type := LpContinuous | LpInteger.

(** [pulp.LpVariable(name, lowBound, upBound, cat)] *)
Record LpVariable : Type := {
  name : string;
  lowBound : option Q;
  upBound : option Q;
  cat : LpCategory
}.

(** What [*] and [+] build from variables and numbers. *)
Inductive LpAffineExpression : Type :=
| Var (v : LpVariable)
| Times (c : Z) (e : LpAffineExpression)
| Plus (e1 e2 : LpAffineExpression).

(** [e <= rhs] *)
Record LpConstraint : Type := {
  lhs : LpAffineExpression;
  rhs : Z
}.

Inductive LpSense : Type := LpMinimize | LpMaximize.

Record LpProblem : Type := {
  title : string;
  sense : LpSense;
  objective : option LpAffineExpression;
  constraints : list LpConstraint
}.

(** [pulp.LpProblem(title, sense)] *)
Definition new_problem (t : string) (s : LpSense) : LpProblem :=
  {| title := t; sense := s; objective := None; constraints := [] |}.

(** [model += other]: an expression becomes the objective, a constraint
    is appended. *)
Inductive addend : Type :=
| Expression (e : LpAffineExpression)
| Constraint (c : LpConstraint).

Definition iadd (model : LpProblem) (other : addend) : LpProblem :=
  match other with
  | Expression e =>
      {| title := title model; sense := sense model;
         objective := Some e; constraints := constraints model |}
  | Constraint c =>
      {| title := title model; sense := sense model;
         objective := objective model;
         constraints := constraints model ++ [c] |}
  end.

Fixpoint expr_variables (e : LpAffineExpression) : list LpVariable :=
  match e with
  | Var v => [v]
  | Times _ e' => expr_variables e'
  | Plus e1 e2 => expr_variables e1 ++ expr_variables e2
  end.

(** [model.variables()]: those of the objective and of the constraints. *)
Definition variables (model : LpProblem) : list LpVariable :=
  match objective model with
  | Some e => expr_variables e
  | None => []
  end ++ flat_map (fun c => expr_variables (lhs c)) (constraints model).

(** The values the solver leaves in the variables ([varValue]), by
    variable name.  CBC reports them as floats, modelled as rationals. *)
Definition assignment : Type := string -> Q.

(** [pulp.value(e)] *)
Fixpoint value (e : LpAffineExpression) (a : assignment) : Q :=
  match e with
  | Var v => a (name v)
  | Times c e' => inject_Z c * value e' a
  | Plus e1 e2 => value e1 a + value e2 a
  end.

Definition is_integer (q : Q) : Prop := q == inject_Z (Qfloor q).

Definition within_bounds (a : assignment) (v : LpVariable) : Prop :=
  match lowBound v with Some l => l <= a (name v) | None => True end /\
  match upBound v with Some u => a (name v) <= u | None => True end /\
  (cat v = LpInteger -> is_integer (a (name v))).

Definition holds (a : assignment) (c : LpConstraint) : Prop :=
  value (lhs c) a <= inject_Z (rhs c).

Definition feasible (model : LpProblem) (a : assignment) : Prop :=
  Forall (within_bounds a) (variables model) /\
  Forall (holds a) (constraints model).

Definition objective_value (model : LpProblem) (a : assignment) : Q :=
  match objective model with
  | Some e => value e a
  | None => 0
  end.

(** [b] is at least as good as [a] for the problem's sense. *)
Definition no_better (model : LpProblem) (a b : assignment) : Prop :=
  match sense model with
  | LpMaximize => objective_value model a <= objective_value model b
  | LpMinimize => objective_value model b <= objective_value model a
  end.

(** The objective cannot improve without limit on the feasible set. *)
Definition bounded (model : LpProblem) : Prop :=
  exists B : Q,
    forall b, feasible model b ->
      match sense model with
      | LpMaximize => objective_value model b <= B
      | LpMinimize => B <= objective_value model b
      end.

Definition LpStatusOptimal : Z := 1%Z.
Definition LpStatusInfeasible : Z := (-1)%Z.

(** What the notebook relies on from [model.solve(COIN_CMD)] for the
    problem it passes: with status 1 the variables hold an optimum, and
    status 1 is returned whenever the problem is feasible and bounded. *)
Record exact_on (solve : LpProblem -> Z * assignment) (model : LpProblem)
  : Prop := {
  optimum_returned :
    fst (solve model) = LpStatusOptimal ->
    feasible model (snd (solve model)) /\
    forall b, feasible model b -> no_better model b (snd (solve model));
  optimum_found :
    (exists a, feasible model a) -> bounded model ->
    fst (solve model) = LpStatusOptimal
}.

End PuLP.

(** ** Cells 5 to 10: the model, the solver call, the report *)

Module Notebook.
Import NumPy Pandas Hours PuLP.
Open Scope string_scope.

(** The numeric literals of cells 7 and 8, kept as a record so that
    scenarios with other capacities can be stated. *)
Record Constants : Type := {
  price_x1 : Z; price_x2 : Z; price_x3 : Z; price_x4 : Z;
  cutting_Besiktas : Z; sewing_Besiktas : Z;
  cutting_Davutpasa : Z; sewing_Davutpasa : Z;
  cloth_per_unit : Z; cloth_supply : Z
}.

Definition literals : Constants :=
  {| price_x1 := 10; price_x2 := 15; price_x3 := 10; price_x4 := 15;
     cutting_Besiktas := 80; sewing_Besiktas := 60;
     cutting_Davutpasa := 60; sewing_Davutpasa := 75;
     cloth_per_unit := 4; cloth_supply := 120 |}.

(** Cell 5 *)
Definition cell5 : LpProblem := new_problem "Profit_Maximization" LpMaximize.

(** Cell 6: [pulp.LpVariable('x_i', lowBound = 0, cat = 'Integer')] *)
Definition decision (n : string) : LpVariable :=
  {| name := n; lowBound := Some 0%Q; upBound := None; cat := LpInteger |}.

Definition x_1 : LpVariable := decision "x_1".
Definition x_2 : LpVariable := decision "x_2".
Definition x_3 : LpVariable := decision "x_3".
Definition x_4 : LpVariable := decision "x_4".

Declare Scope lp_scope.
Delimit Scope lp_scope with lp.
Notation "c *: x" := (Times c (Var x)) (at level 40) : lp_scope.
Notation "e1 +: e2" := (Plus e1 e2) (at level 50, left associativity)
  : lp_scope.
Notation "e <=: r" := {| lhs := e; rhs := r |} (at level 70) : lp_scope.

(** Cell 7: [model += 10*x_1 + 15*x_2 + 10*x_3 + 15*x_4] *)
Definition cell7_with (K : Constants) (model : LpProblem) : LpProblem :=
  iadd model
    (Expression (price_x1 K *: x_1 +: price_x2 K *: x_2
                 +: price_x3 K *: x_3 +: price_x4 K *: x_4)%lp).

(** Cell 8: the four capacity constraints and the cloth constraint. *)
Definition cell8_with (K : Constants) (constraints : list (list (list Z)))
  (model : LpProblem) : option LpProblem :=
  let? c000 := at3 constraints 0 0 0 in
  let? c001 := at3 constraints 0 0 1 in
  let model :=
    iadd model
      (Constraint (c000 *: x_1 +: c001 *: x_2 <=: cutting_Besiktas K)%lp) in
  let? c100 := at3 constraints 1 0 0 in
  let? c101 := at3 constraints 1 0 1 in
  let model :=
    iadd model
      (Constraint (c100 *: x_1 +: c101 *: x_2 <=: sewing_Besiktas K)%lp) in
  let? c010 := at3 constraints 0 1 0 in
  let? c011 := at3 constraints 0 1 1 in
  let model :=
    iadd model
      (Constraint (c010 *: x_3 +: c011 *: x_4 <=: cutting_Davutpasa K)%lp) in
  let? c110 := at3 constraints 1 1 0 in
  let? c111 := at3 constraints 1 1 1 in
  let model :=
    iadd model
      (Constraint (c110 *: x_3 +: c111 *: x_4 <=: sewing_Davutpasa K)%lp) in
  Some (iadd model
          (Constraint
             {| lhs := Times (cloth_per_unit K)
                         (Var x_1 +: Var x_2 +: Var x_3 +: Var x_4)%lp;
                rhs := cloth_supply K |})).

Definition cell7 : LpProblem -> LpProblem := cell7_with literals.
Definition cell8 : list (list (list Z)) -> LpProblem -> option LpProblem :=
  cell8_with literals.

(** Cells 5 to 8 in sequence. *)
Definition build_with (K : Constants) (constraints : list (list (list Z)))
  : option LpProblem :=
  cell8_with K constraints (cell7_with K cell5).

Definition build : list (list (list Z)) -> option LpProblem :=
  build_with literals.

(** One printed line: fixed text, or a template ending in [{}] with the
    number that fills it. *)
Inductive line : Type :=
| Text (s : string)
| Figure (template : string) (v : Q).

(** Cell 10.  [val v] is [v.value()]. *)
Definition cell10 (feasible : Z) (model : LpProblem) (a : assignment)
  : list line :=
  let val (v : LpVariable) := a (name v) in
  if (feasible =? 1)%Z then
    [ Text "Production Quantities:";
      Figure "Jeans in Beşiktaş: " (val x_2);
      Figure "Jeans in Davutpaşa: " (val x_4);
      Figure "T-shirts in Beşiktaş: " (val x_1);
      Figure "T-shirts in Davutpaşa: " (val x_3);
      Text "Total amount used:";
      Figure "Cutting in Beşiktaş: " (val x_1 + val x_2)%Q;
      Figure "Cutting in Davutpaşa: " (val x_3 + val x_4)%Q;
      Figure "Sewing in Beşiktaş: " (val x_1 + val x_2)%Q;
      Figure "Sewing in Davutpaşa: " (val x_3 + val x_4)%Q;
      Figure "Cloths in Beşiktaş: " (4 * (val x_1 + val x_2))%Q;
      Figure "Cloths in Davutpaşa: " (4 * (val x_3 + val x_4))%Q;
      Figure "Total profit: " (objective_value model a) ]
  else
    [ Text "No feasible solution found" ].

Section Run.
(** The generator behind [np.random], the solver behind
    [model.solve], and Python's rendering of a float by [format]. *)
Variable G : BitGenerator.
Variable solve : LpProblem -> Z * assignment.
Variable format : Q -> string.

Definition print (l : line) : string :=
  match l with
  | Text s => s
  | Figure template v => template ++ format v
  end.

(** Cells 2 to 4: the nested coefficient list of a run that starts
    with the global generator in state [g0]. *)
Definition coefficients_with (s : Z) (g0 : rng G)
  : option (list (list (list Z))) :=
  let? g := cell2_with G s g0 in
  let? (production_hours, _) := cell3 G g in
  cell4 production_hours.

Definition coefficients : rng G -> option (list (list (list Z))) :=
  coefficients_with 21506050.

(** Cells 9 and 10 on a built model. *)
Definition solve_and_report (model : LpProblem) : list line :=
  let (feasible, a) := solve model in
  cell10 feasible model a.

(** The whole notebook: what cell 10 prints. *)
Definition run (g0 : rng G) : option (list string) :=
  let? constraints := coefficients g0 in
  let? model := build constraints in
  Some (map print (solve_and_report model)).
End Run.

End Notebook.

(** ** Vocabulary for the statements *)

Module Scenario.
Import NumPy Pandas Hours PuLP Notebook.
Open Scope string_scope.

(** The 2 x 2 x 2 coefficient table, one field per
    (process, site, product). *)
Record CoefficientTable : Type := {
  cut_B_T : Z; cut_B_J : Z; cut_D_T : Z; cut_D_J : Z;
  sew_B_T : Z; sew_B_J : Z; sew_D_T : Z; sew_D_J : Z
}.

(** The table as the nested list [constraints] of cell 4. *)
Definition nested (t : CoefficientTable) : list (list (list Z)) :=
  [[[cut_B_T t; cut_B_J t]; [cut_D_T t; cut_D_J t]];
   [[sew_B_T t; sew_B_J t]; [sew_D_T t; sew_D_J t]]].

(** The table as the frame [production_hours] of cell 3. *)
Definition frame (t : CoefficientTable) : DataFrame :=
  hours_frame [cut_B_T t; cut_B_J t; cut_D_T t; cut_D_J t]
              [sew_B_T t; sew_B_J t; sew_D_T t; sew_D_J t].

(** The table a run draws from generator state [g]. *)
Definition drawn (G : BitGenerator) (g : rng G) : CoefficientTable :=
  let e i := entry (sample_at G g i) in
  {| cut_B_T := e 0%nat; cut_B_J := e 1%nat;
     sew_B_T := e 2%nat; sew_B_J := e 3%nat;
     cut_D_T := e 4%nat; cut_D_J := e 5%nat;
     sew_D_T := e 6%nat; sew_D_J := e 7%nat |}.

(** The problem cells 5 to 8 build from a table, written out. *)
Definition problem (K : Constants) (t : CoefficientTable) : LpProblem :=
  {| title := "Profit_Maximization";
     sense := LpMaximize;
     objective :=
       Some (price_x1 K *: x_1 +: price_x2 K *: x_2
             +: price_x3 K *: x_3 +: price_x4 K *: x_4)%lp;
     constraints :=
       [ (cut_B_T t *: x_1 +: cut_B_J t *: x_2 <=: cutting_Besiktas K)%lp;
         (sew_B_T t *: x_1 +: sew_B_J t *: x_2 <=: sewing_Besiktas K)%lp;
         (cut_D_T t *: x_3 +: cut_D_J t *: x_4 <=: cutting_Davutpasa K)%lp;
         (sew_D_T t *: x_3 +: sew_D_J t *: x_4 <=: sewing_Davutpasa K)%lp;
         {| lhs := Times (cloth_per_unit K)
                     (Var x_1 +: Var x_2 +: Var x_3 +: Var x_4)%lp;
            rhs := cloth_supply K |} ] |}.

(** An integer production plan as an assignment of the four variables. *)
Definition plan (z1 z2 z3 z4 : Z) : assignment :=
  fun n =>
    if String.eqb n "x_1" then inject_Z z1
    else if String.eqb n "x_2" then inject_Z z2
    else if String.eqb n "x_3" then inject_Z z3
    else if String.eqb n "x_4" then inject_Z z4
    else 0%Q.

(** An assignment that takes the integer values [z1 .. z4]. *)
Definition takes (b : assignment) (z1 z2 z3 z4 : Z) : Prop :=
  (b "x_1" == inject_Z z1 /\ b "x_2" == inject_Z z2 /\
   b "x_3" == inject_Z z3 /\ b "x_4" == inject_Z z4)%Q.

(** The five inequalities over non-negative integers, written out. *)
Definition admissible (K : Constants) (t : CoefficientTable)
  (z1 z2 z3 z4 : Z) : Prop :=
  0 <= z1 /\ 0 <= z2 /\ 0 <= z3 /\ 0 <= z4 /\
  z1 * cut_B_T t + z2 * cut_B_J t <= cutting_Besiktas K /\
  z1 * sew_B_T t + z2 * sew_B_J t <= sewing_Besiktas K /\
  z3 * cut_D_T t + z4 * cut_D_J t <= cutting_Davutpasa K /\
  z3 * sew_D_T t + z4 * sew_D_J t <= sewing_Davutpasa K /\
  cloth_per_unit K * (z1 + z2 + z3 + z4) <= cloth_supply K.

Definition profit (K : Constants) (z1 z2 z3 z4 : Z) : Z :=
  price_x1 K * z1 + price_x2 K * z2 + price_x3 K * z3 + price_x4 K * z4.

(** The table the notebook's recorded run printed. *)
Definition recorded : CoefficientTable :=
  {| cut_B_T := 10; cut_B_J := 4; cut_D_T := 2; cut_D_J := 7;
     sew_B_T := 9; sew_B_J := 10; sew_D_T := 7; sew_D_J := 8 |}.

(** The literals with the four capacities replaced. *)
Definition with_capacities (c : Z) : Constants :=
  {| price_x1 := 10; price_x2 := 15; price_x3 := 10; price_x4 := 15;
     cutting_Besiktas := c; sewing_Besiktas := c;
     cutting_Davutpasa := c; sewing_Davutpasa := c;
     cloth_per_unit := 4; cloth_supply := 120 |}.

(** The literals with the four capacities and the cloth supply at 0. *)
Definition all_zero : Constants :=
  {| price_x1 := 10; price_x2 := 15; price_x3 := 10; price_x4 := 15;
     cutting_Besiktas := 0; sewing_Besiktas := 0;
     cutting_Davutpasa := 0; sewing_Davutpasa := 0;
     cloth_per_unit := 4; cloth_supply := 0 |}.

(** A solver that answers with a fixed status and assignment. *)
Definition answer (status : Z) (a : assignment)
  : LpProblem -> Z * assignment :=
  fun _ => (status, a).

(** A reference solver by enumeration, for problems over the four
    decision variables whose feasible plans have a total of at most [B]
    units: every such plan is tried, the feasible one with the best
    objective is kept (the first among equals). *)
Definition range (n : nat) : list Z := map Z.of_nat (seq 0 (S n)).

Definition plans (B : nat) : list (Z * Z * Z * Z) :=
  flat_map (fun z1 =>
    flat_map (fun z2 =>
      flat_map (fun z3 =>
        map (fun z4 => (z1, z2, z3, z4))
          (range (B - Z.to_nat (z1 + z2 + z3))))
        (range (B - Z.to_nat (z1 + z2))))
      (range (B - Z.to_nat z1)))
    (range B).

Definition as_plan (c : Z * Z * Z * Z) : assignment :=
  let '(z1, z2, z3, z4) := c in plan z1 z2 z3 z4.

Definition within_boundsb (a : assignment) (v : LpVariable) : bool :=
  match lowBound v with Some l => Qle_bool l (a (name v)) | None => true end
  && match upBound v with Some u => Qle_bool (a (name v)) u | None => true end
  && match cat v with
     | LpInteger => Qeq_bool (a (name v)) (inject_Z (Qfloor (a (name v))))
     | LpContinuous => true
     end.

Definition holdsb (a : assignment) (c : LpConstraint) : bool :=
  Qle_bool (value (lhs c) a) (inject_Z (rhs c)).

Definition feasibleb (model : LpProblem) (a : assignment) : bool :=
  forallb (within_boundsb a) (variables model)
  && forallb (holdsb a) (constraints model).

(** [no_better model a b], decided. *)
Definition no_betterb (model : LpProblem) (a b : assignment) : bool :=
  match sense model with
  | LpMaximize => Qle_bool (objective_value model a) (objective_value model b)
  | LpMinimize => Qle_bool (objective_value model b) (objective_value model a)
  end.

(** One candidate against the plan kept so far. *)
Definition consider (model : LpProblem) (kept : option (Z * Z * Z * Z))
  (c : Z * Z * Z * Z) : option (Z * Z * Z * Z) :=
  if feasibleb model (as_plan c) then
    match kept with
    | None => Some c
    | Some d => if no_betterb model (as_plan c) (as_plan d) then kept
                else Some c
    end
  else kept.

(** The search runs through [plans B] as four nested loops. *)
Definition search (B : nat) (model : LpProblem) : option (Z * Z * Z * Z) :=
  fold_left (fun k1 z1 =>
    fold_left (fun k2 z2 =>
      fold_left (fun k3 z3 =>
        fold_left (fun k4 z4 => consider model k4 (z1, z2, z3, z4))
          (range (B - Z.to_nat (z1 + z2 + z3))) k3)
        (range (B - Z.to_nat (z1 + z2))) k2)
      (range (B - Z.to_nat z1)) k1)
    (range B) None.

Definition exhaustive (B : nat) (model : LpProblem) : Z * assignment :=
  match search B model with
  | Some c => (LpStatusOptimal, as_plan c)
  | None => (LpStatusInfeasible, plan 0 0 0 0)
  end.

(** Modelled from the spec: the solver behind
    [model.solve(solver = pulp.COIN_CMD(msg = 0))], that is PuLP's call
    of the CBC program, which is not part of the repository.  The spec
    describes it as "a black box satisfying exact MILP semantics" over
    "4 non-negative integer variables" that "returns a status flag and,
    on success, the optimal value of each variable and of the
    objective".  It is modelled as the exhaustive search above over the
    plans of at most 30 units, the most the cloth constraint
    4 (x1 + x2 + x3 + x4) <= 120 of cell 8 admits. *)
Definition COIN_CMD : LpProblem -> Z * assignment := exhaustive 30.

(** A bit generator that replays a tape of 53-bit numerators: the
    draw is [k mod 2^53 / 2^53]; an exhausted tape yields zero. *)
Definition two53 : positive := 9007199254740992.

Definition tape_sample (tape : list Z) : Q * list Z :=
  match tape with
  | [] => (0%Q, [])
  | k :: rest => ((k mod Zpos two53) # two53, rest)
  end.

Lemma tape_sample_range (tape : list Z) :
  (0 <= fst (tape_sample tape) /\ fst (tape_sample tape) < 1)%Q.
Proof.
  destruct tape as [|k rest]; simpl.
  - split; [apply Qle_refl | reflexivity].
  - pose proof (Z.mod_pos_bound k (Zpos two53) eq_refl) as [Hlo Hhi].
    unfold Qle, Qlt; simpl. split; lia.
Qed.

Definition tape_generator (tapes : Z -> list Z) : BitGenerator :=
  {| rng := list Z;
     init_by_seed := tapes;
     random_sample := tape_sample;
     random_sample_range := tape_sample_range |}.

(** Numerators whose draws round to the recorded table, in draw order
    10, 4, 9, 10 (Beşiktaş) and 2, 7, 7, 8 (Davutpaşa). *)
Definition recorded_tape : list Z :=
  map (fun v => (2 * v - 2) * (Zpos two53 / 18) + 5)
    [10; 4; 9; 10; 2; 7; 7; 8] ++ [0].

(** The number of [k] below [n] with [p k]. *)
Fixpoint count_below (p : Z -> bool) (n : nat) : Z :=
  match n with
  | O => 0
  | S m => (if p (Z.of_nat m) then 1 else 0) + count_below p m
  end.

(** Of the [N] equally likely draws [k / N] of [random_sample]
    (NumPy: [N = 2^53]), how many give the table entry [v]. *)
Definition outcomes (N : positive) (v : Z) : Z :=
  count_below (fun k => Z.eqb (entry (k # N)) v) (Pos.to_nat N).

(** The figure printed under a template, and how many figures there are. *)
Fixpoint figure (template : string) (ls : list line) : option Q :=
  match ls with
  | [] => None
  | Text _ :: ls' => figure template ls'
  | Figure t v :: ls' =>
      if String.eqb t template then Some v else figure template ls'
  end.

Definition is_figure (l : line) : bool :=
  match l with Text _ => false | Figure _ _ => true end.

Definition figures (ls : list line) : nat :=
  List.length (filter is_figure ls).

(** The report of the recorded scenario, the solver answering the
    recorded optimum. *)
Definition recorded_report : list line :=
  solve_and_report (answer 1 (plan 0 6 1 8)) (problem literals recorded).

(** Python's [str] of a float that holds an integer (below 10^16 in
    magnitude): the digits and [.0].  Other values do not occur in
    the examples below; they are shown as a fraction. *)
Definition float_str (q : Q) : string :=
  let z := Qfloor q in
  if Qeq_bool q (inject_Z z)
  then DecimalString.NilZero.string_of_int (Z.to_int z) ++ ".0"
  else DecimalString.NilZero.string_of_int (Z.to_int (Qnum q)) ++ "/"
       ++ DecimalString.NilZero.string_of_uint (Pos.to_uint (Qden q)).

End Scenario.

(** ** Further vocabulary: shapes, orders on tables, other scenarios *)

Module Shapes.
Import NumPy Pandas Hours PuLP Notebook Scenario.

(** Consecutive pairs of a row; an unpaired last element is left out. *)
Fixpoint pairs {A : Type} (l : list A) : list (list A) :=
  match l with
  | a :: b :: rest => [a; b] :: pairs rest
  | _ => []
  end.

(** A frame as pandas keeps it: distinct column labels, one row label
    per row, every row as long as the columns. *)
Definition well_formed (df : DataFrame) : Prop :=
  NoDup (columns df) /\
  List.length (index df) = List.length (values df) /\
  Forall (fun r => List.length r = List.length (columns df)) (values df).

(** Entry by entry, [t] needs no more hours than [t']. *)
Definition table_le (t t' : CoefficientTable) : Prop :=
  cut_B_T t <= cut_B_T t' /\ cut_B_J t <= cut_B_J t' /\
  cut_D_T t <= cut_D_T t' /\ cut_D_J t <= cut_D_J t' /\
  sew_B_T t <= sew_B_T t' /\ sew_B_J t <= sew_B_J t' /\
  sew_D_T t <= sew_D_T t' /\ sew_D_J t <= sew_D_J t'.

(** Every entry of the table lies between [lo] and [hi]. *)
Definition entries_between (lo hi : Z) (t : CoefficientTable) : Prop :=
  lo <= cut_B_T t <= hi /\ lo <= cut_B_J t <= hi /\
  lo <= cut_D_T t <= hi /\ lo <= cut_D_J t <= hi /\
  lo <= sew_B_T t <= hi /\ lo <= sew_B_J t <= hi /\
  lo <= sew_D_T t <= hi /\ lo <= sew_D_J t <= hi.

(** The table with the same entry everywhere. *)
Definition constant_table (c : Z) : CoefficientTable :=
  {| cut_B_T := c; cut_B_J := c; cut_D_T := c; cut_D_J := c;
     sew_B_T := c; sew_B_J := c; sew_D_T := c; sew_D_J := c |}.

(** PuLP's status for an unbounded problem. *)
Definition LpStatusUnbounded : Z := -2.

(** Constants under which nothing limits production: no cloth is
    needed, and with a table of zeros no hours either. *)
Definition unlimited : Constants :=
  {| price_x1 := 10; price_x2 := 15; price_x3 := 10; price_x4 := 15;
     cutting_Besiktas := 80; sewing_Besiktas := 60;
     cutting_Davutpasa := 60; sewing_Davutpasa := 75;
     cloth_per_unit := 0; cloth_supply := 120 |}.

(** A small frame with three columns, for the odd case of cell 4. *)
Definition three_columns : DataFrame :=
  {| index := ["Cutting"; "Sewing"]%string;
     columns := [("A", "p"); ("A", "q"); ("B", "p")]%string;
     values := [[1; 2; 3]; [4; 5; 6]] |}.

End Shapes.

(** * Properties *)

Import NumPy Pandas Hours PuLP Notebook Scenario.

(** ** The generator: successive draws *)

Section Draws.
Variable G : BitGenerator.

Lemma sample_at_range (g : rng G) (i : nat) :
  (0 <= sample_at G g i /\ sample_at G g i < 1)%Q.
Proof. unfold sample_at. apply random_sample_range. Qed.

Lemma uniform_samples (low high : Q) (n : nat) :
  forall g,
    uniform G low high n g =
    (map (fun i => fl (low + fl (fl (high - low) * sample_at G g i)))
         (seq 0 n),
     advance G n g).
Proof.
  induction n as [|n IH]; intro g; simpl.
  - reflexivity.
  - destruct (random_sample G g) as [x g1] eqn:E.
    rewrite IH. rewrite <- seq_shift, map_map.
    unfold sample_at. simpl. rewrite E. simpl.
    reflexivity.
Qed.

Lemma random_hours_entries (g : rng G) :
  random_hours G g =
  ([entry (sample_at G g 0); entry (sample_at G g 1);
    entry (sample_at G g 2); entry (sample_at G g 3)], advance G 4 g).
Proof.
  unfold random_hours. rewrite uniform_samples. reflexivity.
Qed.

(** Cell 3 never raises, and its frame holds the eight rounded draws:
    the first four fill Beşiktaş row by row, the next four Davutpaşa. *)
Lemma cell3_frame (g : rng G) :
  cell3 G g =
  Some (hours_frame
          [entry (sample_at G g 0); entry (sample_at G g 1);
           entry (sample_at G g 4); entry (sample_at G g 5)]
          [entry (sample_at G g 2); entry (sample_at G g 3);
           entry (sample_at G g 6); entry (sample_at G g 7)],
        advance G 8 g).
Proof.
  unfold cell3.
  rewrite random_hours_entries. cbn [reshape List.length Nat.eqb Nat.mul
    Nat.add chunks firstn skipn obind].
  rewrite random_hours_entries. reflexivity.
Qed.

(** An accepted seed replaces the state; any other raises. *)
Lemma seed_accepted (s : Z) (g0 : rng G) :
  0 <= s < 2 ^ 32 -> cell2_with G s g0 = Some (init_by_seed G s).
Proof.
  intro H. unfold cell2_with, seed.
  destruct (Z.leb_spec 0 s); [|lia].
  destruct (Z.ltb_spec s (2 ^ 32)); [reflexivity|lia].
Qed.

Lemma seed_rejected (s : Z) (g0 : rng G) :
  s < 0 \/ 2 ^ 32 <= s -> cell2_with G s g0 = None.
Proof.
  intro H. unfold cell2_with, seed.
  destruct (Z.leb_spec 0 s); [|reflexivity].
  destruct (Z.ltb_spec s (2 ^ 32)); [lia|reflexivity].
Qed.

Lemma coefficients_entries (s : Z) (g0 : rng G) :
  0 <= s < 2 ^ 32 ->
  let g := init_by_seed G s in
  coefficients_with G s g0 =
  Some [[[entry (sample_at G g 0); entry (sample_at G g 1)];
         [entry (sample_at G g 4); entry (sample_at G g 5)]];
        [[entry (sample_at G g 2); entry (sample_at G g 3)];
         [entry (sample_at G g 6); entry (sample_at G g 7)]]].
Proof.
  intro H. unfold coefficients_with. rewrite (seed_accepted s g0 H).
  cbn [obind]. rewrite cell3_frame. reflexivity.
Qed.

Lemma coefficients_rejected (s : Z) (g0 : rng G) :
  s < 0 \/ 2 ^ 32 <= s -> coefficients_with G s g0 = None.
Proof.
  intro H. unfold coefficients_with. rewrite (seed_rejected s g0 H).
  reflexivity.
Qed.

(** The notebook's own seed is accepted. *)
Lemma coefficients_literal_seed (g0 : rng G) :
  let g := init_by_seed G 21506050 in
  coefficients G g0 =
  Some [[[entry (sample_at G g 0); entry (sample_at G g 1)];
         [entry (sample_at G g 4); entry (sample_at G g 5)]];
        [[entry (sample_at G g 2); entry (sample_at G g 3)];
         [entry (sample_at G g 6); entry (sample_at G g 7)]]].
Proof. apply (coefficients_entries 21506050 g0). lia. Qed.
End Draws.

(** ** Rounding: which draws give which entry *)

Section Rounding.
Local Open Scope Q_scope.

Lemma Zlt_succ_of_Q (a b : Z) : inject_Z a < inject_Z b + 1 -> (a <= b)%Z.
Proof.
  intro H. apply Z.lt_succ_r. unfold Z.succ.
  rewrite Zlt_Qlt, inject_Z_plus. exact H.
Qed.

Lemma Qfloor_unique (x : Q) (z : Z) :
  inject_Z z <= x -> x < inject_Z z + 1 -> Qfloor x = z.
Proof.
  intros Hlo Hhi.
  pose proof (Qfloor_le x) as Hf.
  pose proof (Qlt_floor x) as Hc. rewrite inject_Z_plus in Hc.
  change (inject_Z 1) with 1 in Hc.
  apply Z.le_antisymm; apply Zlt_succ_of_Q; lra.
Qed.

Lemma astype_int_inject (z : Z) : astype_int (inject_Z z) = z.
Proof.
  unfold astype_int.
  destruct (Qle_bool 0 (inject_Z z)); [apply Qfloor_Z | apply Qceiling_Z].
Qed.

(** [np.round] lands on an integer next to its argument. *)
Lemma round_integral (x : Q) :
  round x = inject_Z (Qfloor x) \/ round x = inject_Z (Qfloor x + 1).
Proof.
  unfold round.
  destruct (x - inject_Z (Qfloor x) ?= 1 # 2); auto.
  destruct (Z.even (Qfloor x)); auto.
Qed.

(** Exactly which arguments round to the integer [v]: the open interval
    of length one around it, and its two end points when [v] is even. *)
Lemma round_iff (x : Q) (v : Z) :
  round x = inject_Z v <->
  (inject_Z v - (1 # 2) < x /\ x < inject_Z v + (1 # 2)) \/
  (Z.even v = true /\
   (x == inject_Z v - (1 # 2) \/ x == inject_Z v + (1 # 2))).
Proof.
  pose proof (Qfloor_le x) as Hf.
  pose proof (Qlt_floor x) as Hc. rewrite inject_Z_plus in Hc.
  change (inject_Z 1) with 1 in Hc.
  assert (Hinj : forall a b : Z, inject_Z a = inject_Z b -> a = b)
    by (intros a b E; injection E; auto).
  unfold round.
  destruct (Qcompare_spec (x - inject_Z (Qfloor x)) (1 # 2)) as [E|E|E].
  - (* a tie *)
    destruct (Z.even (Qfloor x)) eqn:Ev; split.
    + intro H. apply Hinj in H. subst v. right. split; [exact Ev|].
      right. lra.
    + intros [[H1 H2]|[Hev [H|H]]]; f_equal.
      * exfalso.
        assert (v <= Qfloor x)%Z by (apply Zlt_succ_of_Q; lra).
        assert (Qfloor x < v)%Z by (rewrite Zlt_Qlt; lra). lia.
      * assert (Qfloor x = (v - 1)%Z).
        { apply Qfloor_unique; unfold Z.sub;
            rewrite inject_Z_plus, inject_Z_opp;
            change (inject_Z 1) with 1; lra. }
        exfalso. rewrite H0, Z.even_sub, Hev in Ev. discriminate.
      * apply Qfloor_unique; lra.
    + intro H. apply Hinj in H. subst v. right.
      rewrite Z.even_add. rewrite Ev. simpl. split; [reflexivity|].
      left. rewrite inject_Z_plus. change (inject_Z 1) with 1. lra.
    + intros [[H1 H2]|[Hev [H|H]]]; f_equal.
      * exfalso.
        assert (v <= Qfloor x)%Z by (apply Zlt_succ_of_Q; lra).
        assert (Qfloor x < v)%Z by (rewrite Zlt_Qlt; lra). lia.
      * assert (Qfloor x = (v - 1)%Z).
        { apply Qfloor_unique; unfold Z.sub;
            rewrite inject_Z_plus, inject_Z_opp;
            change (inject_Z 1) with 1; lra. }
        lia.
      * exfalso.
        assert (Qfloor x = v) by (apply Qfloor_unique; lra).
        congruence.
  - (* below the middle: down *)
    split.
    + intro H. apply Hinj in H. subst v. left. lra.
    + intros [[H1 H2]|[_ [H|H]]]; f_equal.
      * apply Z.le_antisymm; apply Zlt_succ_of_Q; lra.
      * exfalso.
        assert (Qfloor x = (v - 1)%Z).
        { apply Qfloor_unique; unfold Z.sub;
            rewrite inject_Z_plus, inject_Z_opp;
            change (inject_Z 1) with 1; lra. }
        rewrite H0 in E. unfold Z.sub in E.
        rewrite inject_Z_plus, inject_Z_opp in E.
        change (inject_Z 1) with 1 in E. lra.
      * exfalso.
        assert (Qfloor x = v) by (apply Qfloor_unique; lra).
        subst v. lra.
  - (* above the middle: up *)
    split.
    + intro H. apply Hinj in H. subst v. left.
      rewrite inject_Z_plus. change (inject_Z 1) with 1. lra.
    + intros [[H1 H2]|[_ [H|H]]]; f_equal.
      * assert (Qfloor x < v)%Z by (rewrite Zlt_Qlt; lra).
        assert (v <= Qfloor x + 1)%Z.
        { apply Zlt_succ_of_Q. rewrite inject_Z_plus.
          change (inject_Z 1) with 1. lra. }
        lia.
      * exfalso.
        assert (Qfloor x = (v - 1)%Z).
        { apply Qfloor_unique; unfold Z.sub;
            rewrite inject_Z_plus, inject_Z_opp;
            change (inject_Z 1) with 1; lra. }
        rewrite H0 in E. unfold Z.sub in E.
        rewrite inject_Z_plus, inject_Z_opp in E.
        change (inject_Z 1) with 1 in E. lra.
      * exfalso.
        assert (Qfloor x = v) by (apply Qfloor_unique; lra).
        subst v. lra.
Qed.

(** The cast after [np.round] is exact: the entry is [v] exactly when
    [np.round] returned [v]. *)
Lemma cast_round_iff (u : Q) (v : Z) :
  astype_int (round u) = v <-> round u = inject_Z v.
Proof.
  split.
  - intro H.
    destruct (round_integral u) as [E|E];
      rewrite E in H |- *; rewrite astype_int_inject in H; congruence.
  - intro H. rewrite H. apply astype_int_inject.
Qed.

(** *** Doubles *)

Lemma round_proper (p q : Q) : p == q -> round p = round q.
Proof.
  intro E. unfold round. rewrite (Qfloor_comp _ _ E).
  assert (C : (p - inject_Z (Qfloor q) ?= 1 # 2) =
              (q - inject_Z (Qfloor q) ?= 1 # 2))
    by (apply Qcompare_comp; [rewrite E; reflexivity | reflexivity]).
  rewrite C. reflexivity.
Qed.

(** [round] lands on an integer at most one half away. *)
Lemma round_near (y : Q) :
  exists v : Z, round y = inject_Z v /\
                inject_Z v - (1 # 2) <= y /\ y <= inject_Z v + (1 # 2).
Proof.
  pose proof (Qfloor_le y) as Hf.
  pose proof (Qlt_floor y) as Hc. rewrite inject_Z_plus in Hc.
  change (inject_Z 1) with 1 in Hc.
  unfold round.
  destruct (Qcompare_spec (y - inject_Z (Qfloor y)) (1 # 2)) as [E|E|E].
  - destruct (Z.even (Qfloor y)).
    + exists (Qfloor y). split; [reflexivity|]. split; lra.
    + exists (Qfloor y + 1)%Z. split; [reflexivity|].
      rewrite inject_Z_plus. change (inject_Z 1) with 1. split; lra.
  - exists (Qfloor y). split; [reflexivity|]. split; lra.
  - exists (Qfloor y + 1)%Z. split; [reflexivity|].
    rewrite inject_Z_plus. change (inject_Z 1) with 1. split; lra.
Qed.

(** Rounding does not cross an integer. *)
Lemma round_le_integer (y : Q) (m : Z) : y <= inject_Z m -> round y <= inject_Z m.
Proof.
  intro H. destruct (round_near y) as (v & -> & Hlo & _).
  rewrite <- Zle_Qle. apply Zlt_succ_of_Q. lra.
Qed.

Lemma round_ge_integer (y : Q) (m : Z) : inject_Z m <= y -> inject_Z m <= round y.
Proof.
  intro H. destruct (round_near y) as (v & -> & _ & Hhi).
  rewrite <- Zle_Qle. apply Zlt_succ_of_Q. lra.
Qed.

Lemma binade_small (q : Q) : 0 < q -> q < 16 -> (binade q <= 3)%Z.
Proof.
  destruct q as [n d]. unfold Qlt. cbn [Qnum Qden]. intros Hpos Hlt.
  unfold binade. cbn [Qnum Qden].
  assert (Hn : (0 < n)%Z) by lia.
  assert (He0 : (Z.log2 n - Z.log2 (Z.pos d) <= 4)%Z).
  { assert (Z.log2 n <= Z.log2 (Z.pos d * 2 ^ 4))%Z
      by (apply Z.log2_le_mono; lia).
    rewrite Z.log2_mul_pow2 in H by lia. lia. }
  destruct (pow2_le (Z.log2 n - Z.log2 (Z.pos d)) n (Z.pos d)) eqn:C; [|lia].
  unfold pow2_le in C.
  destruct (Z.leb_spec 0 (Z.log2 n - Z.log2 (Z.pos d))) as [L|L]; [|lia].
  apply Z.leb_le in C.
  destruct (Z.le_gt_cases (Z.log2 n - Z.log2 (Z.pos d)) 3) as [G|G];
    [exact G|].
  exfalso.
  assert (2 ^ 4 <= 2 ^ (Z.log2 n - Z.log2 (Z.pos d)))%Z
    by (apply Z.pow_le_mono_r; lia).
  change (2 ^ 4)%Z with 16%Z in H. nia.
Qed.

(** Below 16 the doubles are multiples of 2^-49 or finer: [fl q] is
    [q] scaled by a power of two [P >= 2^49], rounded, scaled back. *)
Lemma fl_grid (q : Q) :
  0 <= q -> q < 16 ->
  exists P : Z,
    (exists j : Z, (0 <= j)%Z /\ P = (2 ^ 49 * 2 ^ j)%Z) /\
    fl q * inject_Z P == round (q * inject_Z P).
Proof.
  intros Hlo Hhi. unfold fl.
  pose proof (Qred_correct q) as Er.
  destruct (Qnum (Qred q)) eqn:En.
  - exists (2 ^ 49 * 2 ^ 0)%Z. split; [exists 0%Z; split; [lia|reflexivity]|].
    assert (Ez : q == 0).
    { rewrite <- Er. unfold Qeq. rewrite En. reflexivity. }
    rewrite (round_proper _ 0); [reflexivity | rewrite Ez; reflexivity].
  - assert (Hrpos : 0 < Qred q) by (unfold Qlt; rewrite En; cbn; lia).
    assert (Hrlt : Qred q < 16) by (rewrite Er; exact Hhi).
    pose proof (binade_small _ Hrpos Hrlt) as Hb.
    unfold fl_pos. set (e := binade (Qred q)) in *.
    destruct (Z.leb_spec e 52) as [L|L]; [|lia].
    exists (2 ^ (52 - e))%Z. split.
    + exists (3 - e)%Z. split; [lia|].
      rewrite <- Z.pow_add_r by lia. f_equal. lia.
    + assert (Hp : (0 < 2 ^ (52 - e))%Z) by (apply Z.pow_pos_nonneg; lia).
      assert (Hq : ~ inject_Z (2 ^ (52 - e)) == 0).
      { intro C. change 0 with (inject_Z 0) in C.
        rewrite inject_Z_injective in C. lia. }
      rewrite (round_proper (q * inject_Z (2 ^ (52 - e)))
                 (Qred q * inject_Z (2 ^ (52 - e))))
        by (rewrite Er; reflexivity).
      eapply Qeq_trans;
        [apply Qmult_comp; [apply Qred_correct | reflexivity]|].
      field. exact Hq.
  - exfalso. assert (Qred q < 0) by (unfold Qlt; rewrite En; cbn; lia).
    rewrite Er in H. lra.
Qed.

Lemma fl_proper (p q : Q) : p == q -> fl p = fl q.
Proof. intro E. unfold fl. rewrite (Qred_complete _ _ E). reflexivity. Qed.

(** A multiple [c] of 2^-49 is not crossed by rounding a value below 16. *)
Lemma fl_le_grid (q c : Q) (m : Z) :
  c * inject_Z (2 ^ 49) == inject_Z m ->
  0 <= q -> q < 16 -> q <= c -> fl q <= c.
Proof.
  intros Hm Hlo Hhi Hc.
  destruct (fl_grid q Hlo Hhi) as (P & (j & Hj & ->) & E).
  assert (Hj2 : (0 < 2 ^ j)%Z) by (apply Z.pow_pos_nonneg; lia).
  rewrite inject_Z_mult in E.
  set (A := inject_Z (2 ^ 49)) in *. set (B := inject_Z (2 ^ j)) in *.
  assert (HA : 0 < A) by reflexivity.
  assert (HB : 0 < B)
    by (unfold B; change 0 with (inject_Z 0); rewrite <- Zlt_Qlt; exact Hj2).
  assert (HAB : 0 < A * B) by (apply Qmult_lt_0_compat; assumption).
  assert (R : round (q * (A * B)) <= inject_Z (m * 2 ^ j)).
  { apply round_le_integer. rewrite inject_Z_mult. fold B. rewrite <- Hm.
    setoid_replace (c * A * B) with (c * (A * B)) by ring.
    apply Qmult_le_compat_r; [exact Hc | apply Qlt_le_weak, HAB]. }
  rewrite <- E, inject_Z_mult in R. fold B in R. rewrite <- Hm in R.
  apply (Qmult_le_r _ _ (A * B) HAB). lra.
Qed.

Lemma fl_ge_grid (q c : Q) (m : Z) :
  c * inject_Z (2 ^ 49) == inject_Z m ->
  0 <= q -> q < 16 -> c <= q -> c <= fl q.
Proof.
  intros Hm Hlo Hhi Hc.
  destruct (fl_grid q Hlo Hhi) as (P & (j & Hj & ->) & E).
  assert (Hj2 : (0 < 2 ^ j)%Z) by (apply Z.pow_pos_nonneg; lia).
  rewrite inject_Z_mult in E.
  set (A := inject_Z (2 ^ 49)) in *. set (B := inject_Z (2 ^ j)) in *.
  assert (HA : 0 < A) by reflexivity.
  assert (HB : 0 < B)
    by (unfold B; change 0 with (inject_Z 0); rewrite <- Zlt_Qlt; exact Hj2).
  assert (HAB : 0 < A * B) by (apply Qmult_lt_0_compat; assumption).
  assert (R : inject_Z (m * 2 ^ j) <= round (q * (A * B))).
  { apply round_ge_integer. rewrite inject_Z_mult. fold B. rewrite <- Hm.
    setoid_replace (c * A * B) with (c * (A * B)) by ring.
    apply Qmult_le_compat_r; [exact Hc | apply Qlt_le_weak, HAB]. }
  rewrite <- E, inject_Z_mult in R. fold B in R. rewrite <- Hm in R.
  apply (Qmult_le_r _ _ (A * B) HAB). lra.
Qed.

(** Rounding a value below 16 moves it by at most 2^-50. *)
Lemma fl_error (q : Q) :
  0 <= q -> q < 16 ->
  q - (1 # 1125899906842624) <= fl q /\ fl q <= q + (1 # 1125899906842624).
Proof.
  intros Hlo Hhi.
  destruct (fl_grid q Hlo Hhi) as (P & (j & Hj & ->) & E).
  assert (Hj2 : (1 <= 2 ^ j)%Z) by (apply (Z.pow_le_mono_r 2 0 j); lia).
  rewrite inject_Z_mult in E.
  set (A := inject_Z (2 ^ 49)) in *. set (B := inject_Z (2 ^ j)) in *.
  assert (HA : A == 562949953421312) by reflexivity.
  assert (HB : 1 <= B)
    by (unfold B; change 1 with (inject_Z 1); rewrite <- Zle_Qle; exact Hj2).
  destruct (round_near (q * (A * B))) as (v & Ev & V1 & V2).
  rewrite Ev in E. rewrite <- E in V1, V2.
  assert (HAB : 562949953421312 <= A * B) by nra.
  split.
  - destruct (Qlt_le_dec (fl q) q) as [L|L]; [|lra].
    assert ((q - fl q) * 562949953421312 <= (q - fl q) * (A * B)) by nra.
    lra.
  - destruct (Qlt_le_dec q (fl q)) as [L|L]; [|lra].
    assert ((fl q - q) * 562949953421312 <= (fl q - q) * (A * B)) by nra.
    lra.
Qed.

Lemma fl_nine : fl (10 - 1) = 9.
Proof. vm_compute. reflexivity. Qed.

(** The value [uniform] passes to [np.round] for a draw [x] of [0, 1). *)
Lemma scaled_draw (x : Q) :
  0 <= x -> x < 1 ->
  let u := fl (1 + fl (fl (10 - 1) * x)) in
  1 <= u /\ u <= 10 /\
  1 + 9 * x - (1 # 562949953421312) <= u /\
  u <= 1 + 9 * x + (1 # 562949953421312).
Proof.
  intros Hlo Hhi. rewrite fl_nine. cbv zeta.
  assert (H0 : 0 <= 9 * x) by lra. assert (H9 : 9 * x < 16) by lra.
  pose proof (fl_ge_grid (9 * x) 0 0 ltac:(reflexivity) H0 H9 H0) as A0.
  pose proof (fl_le_grid (9 * x) 9 (9 * 2 ^ 49) ltac:(reflexivity) H0 H9
                ltac:(lra)) as A9.
  destruct (fl_error (9 * x) H0 H9) as [E1 E2].
  set (a := fl (9 * x)) in *.
  assert (H1 : 0 <= 1 + a) by lra. assert (H16 : 1 + a < 16) by lra.
  pose proof (fl_ge_grid (1 + a) 1 (2 ^ 49) ltac:(reflexivity) H1 H16
                ltac:(lra)) as B1.
  pose proof (fl_le_grid (1 + a) 10 (10 * 2 ^ 49) ltac:(reflexivity) H1 H16
                ltac:(lra)) as B10.
  destruct (fl_error (1 + a) H1 H16) as [F1 F2].
  repeat split; lra.
Qed.
(** [binade] is the exponent: below 16, scaling [q] by 2^(3 - binade q)
    brings it into [8, 16). *)
Lemma binade_scaled (q : Q) :
  0 < q -> q < 16 ->
  (0 <= 3 - binade q)%Z /\
  8 <= q * inject_Z (2 ^ (3 - binade q)) /\
  q * inject_Z (2 ^ (3 - binade q)) < 16.
Proof.
  intros Hpos Hlt. pose proof (binade_small q Hpos Hlt) as Hsmall.
  split; [lia|].
  destruct q as [n d]. unfold Qlt in Hpos, Hlt. cbn [Qnum Qden] in Hpos, Hlt.
  unfold binade in *. cbn [Qnum Qden] in *.
  assert (Hn : (0 < n)%Z) by lia.
  destruct (Z.log2_spec n Hn) as [Na Nb].
  destruct (Z.log2_spec (Z.pos d) eq_refl) as [Da Db].
  pose proof (Z.log2_nonneg n) as A0.
  pose proof (Z.log2_nonneg (Z.pos d)) as B0.
  set (a := Z.log2 n) in *. set (b := Z.log2 (Z.pos d)) in *.
  rewrite Z.pow_succ_r in Nb, Db by assumption.
  assert (Pa : (0 < 2 ^ a)%Z) by (apply Z.pow_pos_nonneg; lia).
  assert (Pb : (0 < 2 ^ b)%Z) by (apply Z.pow_pos_nonneg; lia).
  assert (He0 : (a - b <= 4)%Z).
  { destruct (Z.le_gt_cases (a - b) 4) as [L|L]; [exact L|]. exfalso.
    assert (2 ^ (b + 5) <= 2 ^ a)%Z by (apply Z.pow_le_mono_r; lia).
    rewrite Z.pow_add_r in H by lia. change (2 ^ 5)%Z with 32%Z in H. nia. }
  unfold Qle, Qlt, Qmult, inject_Z. cbn [Qnum Qden].
  rewrite Pos.mul_1_r, !Z.mul_1_r.
  change (Z.pos (Qden 8)) with 1%Z. change (Z.pos (Qden 16)) with 1%Z.
  change (Qnum 8) with 8%Z. change (Qnum 16) with 16%Z.
  rewrite ?Z.mul_1_r.
  destruct (pow2_le (a - b) n (Z.pos d)) eqn:C; unfold pow2_le in C;
    destruct (Z.leb_spec 0 (a - b)) as [L|L].
  - apply Z.leb_le in C.
    assert (E1 : (2 ^ (a - b) * 2 ^ (3 - (a - b)) = 8)%Z)
      by (rewrite <- Z.pow_add_r by lia; replace (a - b + (3 - (a - b)))%Z
            with 3%Z by lia; reflexivity).
    assert (E2 : (2 ^ a = 2 ^ b * 2 ^ (a - b))%Z)
      by (rewrite <- Z.pow_add_r by lia; f_equal; lia).
    assert (P1 : (0 < 2 ^ (a - b))%Z) by (apply Z.pow_pos_nonneg; lia).
    assert (P2 : (0 < 2 ^ (3 - (a - b)))%Z) by (apply Z.pow_pos_nonneg; lia).
    set (X := (2 ^ (a - b))%Z) in *. set (Y := (2 ^ (3 - (a - b)))%Z) in *.
    set (A := (2 ^ a)%Z) in *. set (B := (2 ^ b)%Z) in *.
    split.
    + assert (X * Z.pos d * Y <= n * Y)%Z by nia. nia.
    + assert (n * Y < 2 * (B * X) * Y)%Z by nia.
      assert (2 * (B * X) * Y = 16 * B)%Z by nia. nia.
  - apply Z.leb_le in C.
    assert (E1 : (2 ^ (3 - (a - b)) = 8 * 2 ^ (- (a - b)))%Z)
      by (change 8%Z with (2 ^ 3)%Z; rewrite <- Z.pow_add_r by lia;
          f_equal; lia).
    assert (E2 : (2 ^ b = 2 ^ a * 2 ^ (- (a - b)))%Z)
      by (rewrite <- Z.pow_add_r by lia; f_equal; lia).
    assert (P1 : (0 < 2 ^ (- (a - b)))%Z) by (apply Z.pow_pos_nonneg; lia).
    rewrite E1.
    set (X := (2 ^ (- (a - b)))%Z) in *.
    set (A := (2 ^ a)%Z) in *. set (B := (2 ^ b)%Z) in *.
    split; nia.
  - apply Z.leb_gt in C.
    replace (3 - (a - b - 1))%Z with (4 - (a - b))%Z by lia.
    assert (E1 : (2 ^ (a - b) * 2 ^ (4 - (a - b)) = 16)%Z)
      by (rewrite <- Z.pow_add_r by lia; replace (a - b + (4 - (a - b)))%Z
            with 4%Z by lia; reflexivity).
    assert (E2 : (2 ^ a = 2 ^ b * 2 ^ (a - b))%Z)
      by (rewrite <- Z.pow_add_r by lia; f_equal; lia).
    assert (P1 : (0 < 2 ^ (a - b))%Z) by (apply Z.pow_pos_nonneg; lia).
    assert (P2 : (0 < 2 ^ (4 - (a - b)))%Z) by (apply Z.pow_pos_nonneg; lia).
    set (X := (2 ^ (a - b))%Z) in *. set (Y := (2 ^ (4 - (a - b)))%Z) in *.
    set (A := (2 ^ a)%Z) in *. set (B := (2 ^ b)%Z) in *.
    split.
    + assert (B * X * Y <= n * Y)%Z by nia.
      assert (B * X * Y = 16 * B)%Z by nia. nia.
    + assert (n * Y < X * Z.pos d * Y)%Z by nia. nia.
  - apply Z.leb_gt in C.
    replace (3 - (a - b - 1))%Z with (4 - (a - b))%Z by lia.
    assert (E1 : (2 ^ (4 - (a - b)) = 16 * 2 ^ (- (a - b)))%Z)
      by (change 16%Z with (2 ^ 4)%Z; rewrite <- Z.pow_add_r by lia;
          f_equal; lia).
    assert (E2 : (2 ^ b = 2 ^ a * 2 ^ (- (a - b)))%Z)
      by (rewrite <- Z.pow_add_r by lia; f_equal; lia).
    assert (P1 : (0 < 2 ^ (- (a - b)))%Z) by (apply Z.pow_pos_nonneg; lia).
    rewrite E1.
    set (X := (2 ^ (- (a - b)))%Z) in *.
    set (A := (2 ^ a)%Z) in *. set (B := (2 ^ b)%Z) in *.
    split; nia.
Qed.

(** The scaling exponent is larger for the smaller number. *)
Lemma scaled_exponent_mono (p q : Q) (i j : Z) :
  (0 <= i)%Z -> (0 <= j)%Z -> 0 < p -> p <= q ->
  8 <= p * inject_Z (2 ^ i) -> p * inject_Z (2 ^ i) < 16 ->
  8 <= q * inject_Z (2 ^ j) -> q * inject_Z (2 ^ j) < 16 ->
  (j <= i)%Z.
Proof.
  intros Hi Hj Hp Hpq P8 P16 Q8 Q16.
  destruct (Z.le_gt_cases j i) as [L|L]; [exact L|]. exfalso.
  assert (E : (2 ^ j = 2 ^ i * 2 ^ (j - i))%Z)
    by (rewrite <- Z.pow_add_r by lia; f_equal; lia).
  assert (T : (2 <= 2 ^ (j - i))%Z).
  { change 2%Z with (2 ^ 1)%Z at 1. apply Z.pow_le_mono_r; lia. }
  rewrite E, inject_Z_mult in Q8, Q16.
  assert (Pi : 0 < inject_Z (2 ^ i)).
  { change 0 with (inject_Z 0). rewrite <- Zlt_Qlt.
    apply Z.pow_pos_nonneg; lia. }
  rewrite Zle_Qle in T. change (inject_Z 2) with 2 in T.
  set (A := inject_Z (2 ^ i)) in *. set (B := inject_Z (2 ^ (j - i))) in *.
  assert (p * A <= q * A) by nra.
  assert (2 * (q * A) <= q * A * B) by nra.
  lra.
Qed.

Lemma round_mono (x y : Q) : x <= y -> round x <= round y.
Proof.
  intro H.
  destruct (round_near x) as (v & Ex & X1 & X2).
  destruct (round_near y) as (w & Ey & Y1 & Y2).
  rewrite Ex, Ey, <- Zle_Qle.
  destruct (Z.le_gt_cases v w) as [L|L]; [exact L|]. exfalso.
  assert (W : inject_Z (w + 1) <= inject_Z v) by (rewrite <- Zle_Qle; lia).
  rewrite inject_Z_plus in W. change (inject_Z 1) with 1 in W.
  assert (E : x == y) by lra.
  rewrite (round_proper _ _ E), Ey in Ex.
  injection Ex as Ex. lia.
Qed.

(** [fl] below 16, with the exponent exposed: [q] scaled into
    [2^52, 2^53), rounded to an integer, scaled back. *)
Lemma fl_scaled (q : Q) :
  0 < q -> q < 16 ->
  exists j : Z,
    (0 <= j)%Z /\
    8 <= q * inject_Z (2 ^ j) /\ q * inject_Z (2 ^ j) < 16 /\
    fl q * inject_Z (2 ^ 49 * 2 ^ j) == round (q * inject_Z (2 ^ 49 * 2 ^ j)).
Proof.
  intros Hlo Hhi. unfold fl.
  pose proof (Qred_correct q) as Er.
  assert (Hrpos : 0 < Qred q) by (rewrite Er; exact Hlo).
  assert (Hrlt : Qred q < 16) by (rewrite Er; exact Hhi).
  destruct (binade_scaled _ Hrpos Hrlt) as (Hj & S8 & S16).
  set (e := binade (Qred q)) in *.
  rewrite Er in S8, S16.
  destruct (Qnum (Qred q)) eqn:En;
    [exfalso; unfold Qlt in Hrpos; rewrite En in Hrpos; cbn in Hrpos; lia| |
     exfalso; unfold Qlt in Hrpos; rewrite En in Hrpos; cbn in Hrpos; lia].
  unfold fl_pos. fold e.
  destruct (Z.leb_spec e 52) as [L|L]; [|lia].
  exists (3 - e)%Z. split; [exact Hj|]. split; [exact S8|].
  split; [exact S16|].
  replace (2 ^ 49 * 2 ^ (3 - e))%Z with (2 ^ (52 - e))%Z
    by (rewrite <- Z.pow_add_r by lia; f_equal; lia).
  assert (Hp : (0 < 2 ^ (52 - e))%Z) by (apply Z.pow_pos_nonneg; lia).
  assert (Hq : ~ inject_Z (2 ^ (52 - e)) == 0).
  { intro C. change 0 with (inject_Z 0) in C.
    rewrite inject_Z_injective in C. lia. }
  rewrite (round_proper (q * inject_Z (2 ^ (52 - e)))
             (Qred q * inject_Z (2 ^ (52 - e))))
    by (rewrite Er; reflexivity).
  eapply Qeq_trans;
    [apply Qmult_comp; [apply Qred_correct | reflexivity]|].
  field. exact Hq.
Qed.

(** Rounding to a double keeps the order. *)
Lemma fl_mono (p q : Q) : 0 <= p -> p <= q -> q < 16 -> fl p <= fl q.
Proof.
  intros Hp Hpq Hq.
  destruct (Qlt_le_dec 0 p) as [Pp|Pz].
  - destruct (fl_scaled p Pp ltac:(lra)) as (i & Hi & P8 & P16 & Ep).
    destruct (fl_scaled q ltac:(lra) Hq) as (j & Hj & Q8 & Q16 & Eq).
    pose proof (scaled_exponent_mono p q i j Hi Hj Pp Hpq P8 P16 Q8 Q16)
      as Hji.
    assert (Pi : 0 < inject_Z (2 ^ i)).
    { change 0 with (inject_Z 0). rewrite <- Zlt_Qlt.
      apply Z.pow_pos_nonneg; lia. }
    assert (Pj : 0 < inject_Z (2 ^ j)).
    { change 0 with (inject_Z 0). rewrite <- Zlt_Qlt.
      apply Z.pow_pos_nonneg; lia. }
    rewrite inject_Z_mult in Ep, Eq.
    assert (HA : 0 < inject_Z (2 ^ 49)) by reflexivity.
    set (A := inject_Z (2 ^ 49)) in *.
    destruct (round_near (q * (A * inject_Z (2 ^ j)))) as (m & Em & _).
    destruct (Qlt_le_dec (fl q) p) as [Above|Below].
    + (* [p] and [q] share their exponent *)
      assert (F8 : 8 <= fl q * inject_Z (2 ^ j)).
      { assert (R : inject_Z (8 * 2 ^ 49) <=
                    round (q * (A * inject_Z (2 ^ j)))).
        { apply round_ge_integer. rewrite inject_Z_mult.
          change (inject_Z 8) with 8. fold A. nra. }
        rewrite <- Eq, inject_Z_mult in R. change (inject_Z 8) with 8 in R.
        fold A in R. nra. }
      assert (Hij : (i <= j)%Z).
      { apply (scaled_exponent_mono p p j i Hj Hi Pp (Qle_refl p)).
        - nra.
        - nra.
        - exact P8.
        - exact P16. }
      assert (i = j) by lia. subst i.
      set (B := inject_Z (2 ^ j)) in *.
      assert (PAB : 0 < A * B) by (apply Qmult_lt_0_compat; assumption).
      assert (R : round (p * (A * B)) <= round (q * (A * B)))
        by (apply round_mono, Qmult_le_compat_r;
            [exact Hpq | apply Qlt_le_weak, PAB]).
      rewrite <- Ep, <- Eq in R.
      apply (Qmult_le_r _ _ (A * B) PAB). exact R.
    + (* [fl q] lies on the finer grid of [p] *)
      assert (E : (2 ^ i = 2 ^ j * 2 ^ (i - j))%Z)
        by (rewrite <- Z.pow_add_r by lia; f_equal; lia).
      rewrite Em in Eq.
      assert (PC : 0 < inject_Z (2 ^ (i - j))).
      { change 0 with (inject_Z 0). rewrite <- Zlt_Qlt.
        apply Z.pow_pos_nonneg; lia. }
      rewrite E, inject_Z_mult in Ep.
      set (C := inject_Z (2 ^ (i - j))) in *.
      set (B := inject_Z (2 ^ j)) in *.
      assert (PAB : 0 < A * B) by (apply Qmult_lt_0_compat; assumption).
      assert (PABC : 0 < A * B * C)
        by (apply Qmult_lt_0_compat; assumption).
      assert (R : round (p * (A * (B * C))) <= inject_Z (m * 2 ^ (i - j))).
      { apply round_le_integer. rewrite inject_Z_mult, <- Eq. fold C.
        setoid_replace (p * (A * (B * C))) with (p * (A * B) * C) by ring.
        apply Qmult_le_compat_r; [|apply Qlt_le_weak, PC].
        apply Qmult_le_compat_r; [exact Below | apply Qlt_le_weak, PAB]. }
      rewrite <- Ep, inject_Z_mult, <- Eq in R. fold C in R.
      apply (Qmult_le_r _ _ (A * B * C) PABC). lra.
  - assert (E : p == 0) by lra.
    rewrite (fl_proper _ _ E). change (fl 0) with 0.
    apply (fl_ge_grid q 0 0); [reflexivity | lra | exact Hq | lra].
Qed.

(** A larger draw never gives a smaller entry. *)
Lemma entry_mono (x y : Q) :
  0 <= x -> x <= y -> y < 1 -> (entry x <= entry y)%Z.
Proof.
  intros Hx Hxy Hy. unfold entry. rewrite fl_nine.
  assert (A : fl (9 * x) <= fl (9 * y)) by (apply fl_mono; lra).
  assert (A0 : 0 <= fl (9 * x))
    by (apply (fl_ge_grid _ 0 0); [reflexivity | lra | lra | lra]).
  assert (A9 : fl (9 * y) <= 9)
    by (apply (fl_le_grid _ 9 (9 * 2 ^ 49)); [reflexivity | lra | lra | lra]).
  assert (B : fl (1 + fl (9 * x)) <= fl (1 + fl (9 * y)))
    by (apply fl_mono; lra).
  apply round_mono in B.
  destruct (round_near (fl (1 + fl (9 * x)))) as (v & Ev & _).
  destruct (round_near (fl (1 + fl (9 * y)))) as (w & Ew & _).
  rewrite Ev, Ew in B |- *. rewrite !astype_int_inject.
  rewrite Zle_Qle. exact B.
Qed.

(** The model against doubles known from NumPy: 0.1, a tie broken to
    the even significand, and the five draws k / 2^53 next to a
    rounding boundary at which the sum 1 + 9 x, rounded to a double,
    falls on the other side than the exact sum (or on the tie). *)
Example fl_one_tenth :
  fl (1 # 10) = 3602879701896397 # 36028797018963968.
Proof. vm_compute. reflexivity. Qed.

Example fl_ties_to_even :
  fl (inject_Z (2 ^ 53 + 1)) = inject_Z (2 ^ 53) /\
  fl (inject_Z (2 ^ 53 + 3)) = inject_Z (2 ^ 53 + 4).
Proof. split; vm_compute; reflexivity. Qed.

Example boundary_draws :
  map (fun k => entry (k # 9007199254740992))
    [3502799710177053; 5504399544563940; 6505199461757383;
     7505999378950827; 8506799296144270]%Z =
  [4; 6; 8; 8; 10]%Z.
Proof. vm_compute. reflexivity. Qed.
End Rounding.

(** ** Determinism of the generated table *)

(** C8.  For a fixed seed that [np.random.seed] accepts (0 to 2^32 - 1)
    the generated coefficient table is the same in every run: whatever
    state the global generator was left in before cell 2, seeding
    replaces it, so the table produced by cells 2 to 4 exists and is a
    function of the seed alone, and so is the frame of cell 3 with the
    generator state it leaves. *)
Theorem table_determined_by_seed (G : BitGenerator) (s : Z) :
  0 <= s < 2 ^ 32 ->
  exists table : list (list (list Z)),
    table = nested (drawn G (init_by_seed G s)) /\
    forall g1 g2 : rng G,
      coefficients_with G s g1 = Some table /\
      coefficients_with G s g2 = Some table /\
      cell2_with G s g1 = Some (init_by_seed G s) /\
      cell2_with G s g2 = Some (init_by_seed G s) /\
      (let? g := cell2_with G s g1 in cell3 G g) =
      (let? g := cell2_with G s g2 in cell3 G g).
Proof.
  intro Hs. eexists. split; [reflexivity|].
  intros g1 g2. rewrite !coefficients_entries by exact Hs.
  rewrite !seed_accepted by exact Hs.
  repeat split; reflexivity.
Qed.

Lemma table_determined_by_seed_witness :
  0 <= 21506050 < 2 ^ 32 /\
  exists table : list (list (list Z)),
    table = nested (drawn (tape_generator (fun _ => recorded_tape))
                      recorded_tape) /\
    forall g1 g2 : list Z,
      coefficients_with (tape_generator (fun _ => recorded_tape))
        21506050 g1 = Some table /\
      coefficients_with (tape_generator (fun _ => recorded_tape))
        21506050 g2 = Some table /\
      cell2_with (tape_generator (fun _ => recorded_tape)) 21506050 g1 =
      Some recorded_tape /\
      cell2_with (tape_generator (fun _ => recorded_tape)) 21506050 g2 =
      Some recorded_tape /\
      (let? g := cell2_with (tape_generator (fun _ => recorded_tape))
                   21506050 g1 in
       cell3 (tape_generator (fun _ => recorded_tape)) g) =
      (let? g := cell2_with (tape_generator (fun _ => recorded_tape))
                   21506050 g2 in
       cell3 (tape_generator (fun _ => recorded_tape)) g).
Proof.
  split; [lia|].
  apply (table_determined_by_seed (tape_generator (fun _ => recorded_tape))
           21506050).
  lia.
Defined.

(** ** The extraction loop of cell 4 *)

(** C10.  The extraction loop is a faithful reshape: for every 2 x 4
    production-hours frame with columns (Beşiktaş T-shirts, Beşiktaş
    Jeans, Davutpaşa T-shirts, Davutpaşa Jeans), [constraints[i][j][k]]
    is the frame's entry for process i, site j, product k, and the four
    capacity constraints built in cell 8 carry exactly these entries. *)
Theorem cell4_faithful_reshape (t : CoefficientTable) :
  cell4 (frame t) = Some (nested t) /\
  (forall (p : Process) (s : Site) (x : Product),
      at3 (nested t) (process_index p) (site_index s) (product_index x) =
      loc (frame t) (process_label p) (site_label s, product_label x)) /\
  at3 (nested t) 0 0 0 = Some (cut_B_T t) /\
  at3 (nested t) 0 0 1 = Some (cut_B_J t) /\
  at3 (nested t) 0 1 0 = Some (cut_D_T t) /\
  at3 (nested t) 0 1 1 = Some (cut_D_J t) /\
  at3 (nested t) 1 0 0 = Some (sew_B_T t) /\
  at3 (nested t) 1 0 1 = Some (sew_B_J t) /\
  at3 (nested t) 1 1 0 = Some (sew_D_T t) /\
  at3 (nested t) 1 1 1 = Some (sew_D_J t) /\
  option_map (fun m => firstn 4 (constraints m)) (build (nested t)) =
  Some [ (cut_B_T t *: x_1 +: cut_B_J t *: x_2 <=: 80)%lp;
         (sew_B_T t *: x_1 +: sew_B_J t *: x_2 <=: 60)%lp;
         (cut_D_T t *: x_3 +: cut_D_J t *: x_4 <=: 60)%lp;
         (sew_D_T t *: x_3 +: sew_D_J t *: x_4 <=: 75)%lp ].
Proof.
  split; [reflexivity|].
  split; [intros [] [] []; reflexivity|].
  repeat split; reflexivity.
Qed.

(** ** The built problem and its feasible set *)

(** Inequalities between injected integers, read back over [Z]. *)
Ltac integers :=
  repeat (rewrite <- inject_Z_mult || rewrite <- inject_Z_plus);
  rewrite <- ?Zle_Qle.

Ltac integers_in H :=
  repeat (rewrite <- inject_Z_mult in H || rewrite <- inject_Z_plus in H);
  rewrite <- Zle_Qle in H.

(** The scenario's records, unfolded to their numbers. *)
Ltac numbers :=
  cbv beta iota delta [admissible profit literals recorded with_capacities
    cut_B_T cut_B_J cut_D_T cut_D_J sew_B_T sew_B_J sew_D_T sew_D_J
    price_x1 price_x2 price_x3 price_x4
    cutting_Besiktas sewing_Besiktas cutting_Davutpasa sewing_Davutpasa
    cloth_per_unit cloth_supply].

Section Model.
Local Open Scope Q_scope.

Lemma build_problem (K : Constants) (t : CoefficientTable) :
  build_with K (nested t) = Some (problem K t).
Proof. reflexivity. Qed.

Lemma is_integer_inject (q : Q) (z : Z) : q == inject_Z z -> is_integer q.
Proof.
  intro H. unfold is_integer.
  rewrite (Qfloor_comp _ _ H), Qfloor_Z. exact H.
Qed.

Lemma plan_takes (z1 z2 z3 z4 : Z) : takes (plan z1 z2 z3 z4) z1 z2 z3 z4.
Proof. repeat split; reflexivity. Qed.


(** The feasible assignments of the built problem are exactly the
    non-negative integer plans that meet the five inequalities. *)
Lemma feasible_iff (K : Constants) (t : CoefficientTable) (b : assignment) :
  feasible (problem K t) b <->
  exists z1 z2 z3 z4,
    takes b z1 z2 z3 z4 /\ admissible K t z1 z2 z3 z4.
Proof.
  unfold feasible, admissible, takes. cbn [problem variables objective constraints
    expr_variables flat_map lhs app].
  rewrite !Forall_cons_iff, !Forall_nil_iff.
  unfold within_bounds, holds.
  cbn [x_1 x_2 x_3 x_4 decision name lowBound upBound cat value lhs rhs].
  split.
  - intros [HB HC].
    destruct HB as [[L1 [_ I1]] [[L2 [_ I2]] [[L3 [_ I3]] [[L4 [_ I4]] _]]]].
    specialize (I1 eq_refl). specialize (I2 eq_refl).
    specialize (I3 eq_refl). specialize (I4 eq_refl).
    unfold is_integer in *.
    exists (Qfloor (b "x_1"%string)), (Qfloor (b "x_2"%string)),
           (Qfloor (b "x_3"%string)), (Qfloor (b "x_4"%string)).
    split; [tauto|].
    destruct HC as [C1 [C2 [C3 [C4 [C5 _]]]]].
    rewrite I1, I2 in C1, C2. rewrite I3, I4 in C3, C4.
    rewrite I1, I2, I3, I4 in C5.
    rewrite I1 in L1. rewrite I2 in L2. rewrite I3 in L3. rewrite I4 in L4.
    change 0 with (inject_Z 0) in L1, L2, L3, L4.
    rewrite <- Zle_Qle in L1, L2, L3, L4.
    integers_in C1. integers_in C2. integers_in C3. integers_in C4.
    integers_in C5.
    repeat split; lia.
  - intros (z1 & z2 & z3 & z4 & (E1 & E2 & E3 & E4) & A).
    destruct A as (P1 & P2 & P3 & P4 & A1 & A2 & A3 & A4 & A5).
    assert (N : forall q z, q == inject_Z z -> (0 <= z)%Z ->
                0 <= q /\ True /\ (LpInteger = LpInteger -> is_integer q)).
    { intros q z E P. split; [|split; [exact I|]].
      - rewrite E. change 0 with (inject_Z 0). rewrite <- Zle_Qle. exact P.
      - intros _. exact (is_integer_inject _ _ E). }
    split.
    + repeat split; try (eapply N; eassumption); try exact I;
        try (intros _; eapply is_integer_inject; eassumption);
        try (match goal with
             | E : ?q == inject_Z ?z |- 0 <= ?q =>
                 rewrite E; change 0 with (inject_Z 0);
                 rewrite <- Zle_Qle; assumption
             end).
    + rewrite E1, E2, E3, E4. integers.
      repeat split; try exact I; lia.
Qed.

Lemma objective_takes (K : Constants) (t : CoefficientTable)
  (b : assignment) (z1 z2 z3 z4 : Z) :
  takes b z1 z2 z3 z4 ->
  objective_value (problem K t) b == inject_Z (profit K z1 z2 z3 z4).
Proof.
  intros (E1 & E2 & E3 & E4).
  unfold objective_value, profit.
  cbn [problem objective value x_1 x_2 x_3 x_4 decision name].
  rewrite E1, E2, E3, E4.
  repeat (rewrite <- inject_Z_mult || rewrite <- inject_Z_plus).
  reflexivity.
Qed.

(** With non-negative capacities and supply the empty plan is
    admissible, whatever the table. *)
Lemma idle_admissible (K : Constants) (t : CoefficientTable) :
  (0 <= cutting_Besiktas K)%Z -> (0 <= sewing_Besiktas K)%Z ->
  (0 <= cutting_Davutpasa K)%Z -> (0 <= sewing_Davutpasa K)%Z ->
  (0 <= cloth_supply K)%Z ->
  admissible K t 0 0 0 0.
Proof. intros. unfold admissible. repeat split; lia. Qed.

(** The cloth constraint caps every admissible plan's profit. *)
Lemma profit_capped (c : Z) (t : CoefficientTable) (z1 z2 z3 z4 : Z) :
  admissible (with_capacities c) t z1 z2 z3 z4 ->
  (profit (with_capacities c) z1 z2 z3 z4 <= 450)%Z.
Proof. numbers. lia. Qed.

Lemma profit_capped_literals (t : CoefficientTable) (z1 z2 z3 z4 : Z) :
  admissible literals t z1 z2 z3 z4 ->
  (profit literals z1 z2 z3 z4 <= 450)%Z.
Proof. numbers. lia. Qed.

Lemma bounded_by (K : Constants) (t : CoefficientTable) (B : Z) :
  (forall z1 z2 z3 z4,
      admissible K t z1 z2 z3 z4 -> (profit K z1 z2 z3 z4 <= B)%Z) ->
  bounded (problem K t).
Proof.
  intro H. exists (inject_Z B). intros b Hb. cbn [problem sense].
  apply feasible_iff in Hb. destruct Hb as (z1 & z2 & z3 & z4 & T & A).
  change (objective_value (problem K t) b <= inject_Z B).
  rewrite (objective_takes K t b _ _ _ _ T), <- Zle_Qle. auto.
Qed.

(** Whatever the table, an exact solver reports status 1 on the
    notebook's problem: the empty plan is feasible and the cloth
    constraint bounds the profit. *)
Lemma always_solved (solve : LpProblem -> Z * assignment)
  (t : CoefficientTable) :
  exact_on solve (problem literals t) ->
  fst (solve (problem literals t)) = 1%Z.
Proof.
  intros [_ Hfound]. apply Hfound.
  - exists (plan 0 0 0 0). apply feasible_iff.
    exists 0%Z, 0%Z, 0%Z, 0%Z. split; [apply plan_takes|].
    apply idle_admissible; cbn; lia.
  - apply (bounded_by literals t 450), profit_capped_literals.
Qed.
End Model.

(** ** The reference solver is exact *)

Section Enumeration.
Local Open Scope Q_scope.

Lemma fold_left_flat_map {A B C : Type} (f : A -> C -> A) (g : B -> list C)
  (l : list B) :
  forall a, fold_left f (flat_map g l) a =
            fold_left (fun a x => fold_left f (g x) a) l a.
Proof.
  induction l as [|x l IH]; intro a; simpl.
  - reflexivity.
  - rewrite fold_left_app. apply IH.
Qed.

Lemma fold_left_map {A B C : Type} (f : A -> C -> A) (h : B -> C)
  (l : list B) :
  forall a, fold_left f (map h l) a = fold_left (fun a x => f a (h x)) l a.
Proof.
  induction l as [|x l IH]; intro a; simpl; [reflexivity | apply IH].
Qed.

Lemma fold_left_same {A B : Type} (f g : A -> B -> A) (l : list B) :
  (forall a x, f a x = g a x) ->
  forall a, fold_left f l a = fold_left g l a.
Proof.
  intro E. induction l as [|x l IH]; intro a; simpl.
  - reflexivity.
  - rewrite E. apply IH.
Qed.

Lemma search_plans (B : nat) (model : LpProblem) :
  search B model = fold_left (consider model) (plans B) None.
Proof.
  unfold search, plans. rewrite fold_left_flat_map.
  apply fold_left_same. intros k1 z1. rewrite fold_left_flat_map.
  apply fold_left_same. intros k2 z2. rewrite fold_left_flat_map.
  apply fold_left_same. intros k3 z3. rewrite fold_left_map.
  reflexivity.
Qed.

Lemma in_range (n : nat) (z : Z) :
  In z (range n) <-> (0 <= z <= Z.of_nat n)%Z.
Proof.
  unfold range. rewrite in_map_iff. split.
  - intros (i & E & Hi). apply in_seq in Hi. lia.
  - intro H. exists (Z.to_nat z). split; [lia|]. apply in_seq. lia.
Qed.

Lemma in_plans (B : nat) (z1 z2 z3 z4 : Z) :
  (0 <= z1)%Z -> (0 <= z2)%Z -> (0 <= z3)%Z -> (0 <= z4)%Z ->
  (z1 + z2 + z3 + z4 <= Z.of_nat B)%Z ->
  In (z1, z2, z3, z4) (plans B).
Proof.
  intros H1 H2 H3 H4 Hs. unfold plans.
  apply in_flat_map. exists z1. split; [apply in_range; lia|].
  apply in_flat_map. exists z2. split; [apply in_range; lia|].
  apply in_flat_map. exists z3. split; [apply in_range; lia|].
  apply in_map. apply in_range. lia.
Qed.

Lemma within_boundsb_iff (a : assignment) (v : LpVariable) :
  within_boundsb a v = true <-> within_bounds a v.
Proof.
  unfold within_boundsb, within_bounds, is_integer.
  rewrite !andb_true_iff.
  destruct (lowBound v), (upBound v), (cat v);
    rewrite ?Qle_bool_iff, ?Qeq_bool_iff;
    intuition (try discriminate; auto).
Qed.

Lemma feasibleb_iff (model : LpProblem) (a : assignment) :
  feasibleb model a = true <-> feasible model a.
Proof.
  unfold feasibleb, feasible.
  rewrite andb_true_iff, !forallb_forall, !Forall_forall.
  unfold holdsb, holds.
  split; intros [HB HC]; split; intros x Hx.
  - apply within_boundsb_iff, HB, Hx.
  - apply Qle_bool_iff, HC, Hx.
  - apply within_boundsb_iff, HB, Hx.
  - apply Qle_bool_iff, HC, Hx.
Qed.

Lemma no_betterb_iff (model : LpProblem) (a b : assignment) :
  no_betterb model a b = true <-> no_better model a b.
Proof.
  unfold no_betterb, no_better. destruct (sense model); apply Qle_bool_iff.
Qed.

Lemma no_better_refl (model : LpProblem) (a : assignment) :
  no_better model a a.
Proof. unfold no_better. destruct (sense model); apply Qle_refl. Qed.

Lemma no_better_trans (model : LpProblem) (a b c : assignment) :
  no_better model a b -> no_better model b c -> no_better model a c.
Proof.
  unfold no_better. destruct (sense model); intros H1 H2;
    eapply Qle_trans; eassumption.
Qed.

Lemma no_better_total (model : LpProblem) (a b : assignment) :
  no_betterb model a b = false -> no_better model b a.
Proof.
  unfold no_betterb, no_better. destruct (sense model); intro H;
    apply Qlt_le_weak, Qnot_le_lt; intro C;
    apply Qle_bool_iff in C; congruence.
Qed.

(** What the loop keeps: a feasible candidate that is no worse than the
    plan it started with and than every feasible candidate it has seen. *)
Lemma search_keeps_best (model : LpProblem) (candidates : list (Z * Z * Z * Z)) :
  forall kept,
    (forall d, kept = Some d -> feasibleb model (as_plan d) = true) ->
    let r := fold_left (consider model) candidates kept in
    (forall d, r = Some d -> feasibleb model (as_plan d) = true) /\
    (forall c, In c candidates -> feasibleb model (as_plan c) = true ->
               exists d, r = Some d /\
                         no_better model (as_plan c) (as_plan d)) /\
    (forall d0, kept = Some d0 ->
                exists d, r = Some d /\
                          no_better model (as_plan d0) (as_plan d)).
Proof.
  induction candidates as [|c rest IH]; intros kept Hk; cbn [fold_left].
  - split; [exact Hk|]. split.
    + intros c [].
    + intros d0 E. exists d0. split; [exact E | apply no_better_refl].
  - assert (Hk' : forall d, consider model kept c = Some d ->
                            feasibleb model (as_plan d) = true).
    { unfold consider. intros d.
      destruct (feasibleb model (as_plan c)) eqn:Fc; [|apply Hk].
      destruct kept as [d1|].
      - destruct (no_betterb model (as_plan c) (as_plan d1)).
        + apply Hk.
        + intro E. injection E as <-. exact Fc.
      - intro E. injection E as <-. exact Fc. }
    destruct (IH _ Hk') as (R1 & R2 & R3).
    split; [exact R1|]. split.
    + intros c' [<-|Hin] Fc'.
      * assert (exists e, consider model kept c = Some e /\
                          no_better model (as_plan c) (as_plan e))
          as (e & Ee & Le).
        { unfold consider. rewrite Fc'. destruct kept as [d1|].
          - destruct (no_betterb model (as_plan c) (as_plan d1)) eqn:Nb.
            + exists d1. split; [reflexivity|]. apply no_betterb_iff, Nb.
            + exists c. split; [reflexivity | apply no_better_refl].
          - exists c. split; [reflexivity | apply no_better_refl]. }
        destruct (R3 _ Ee) as (d & Ed & Ld).
        exists d. split; [exact Ed|]. eapply no_better_trans; eassumption.
      * apply R2; assumption.
    + intros d0 E. subst kept.
      assert (exists e, consider model (Some d0) c = Some e /\
                        no_better model (as_plan d0) (as_plan e))
        as (e & Ee & Le).
      { unfold consider. destruct (feasibleb model (as_plan c)).
        - destruct (no_betterb model (as_plan c) (as_plan d0)) eqn:Nb.
          + exists d0. split; [reflexivity | apply no_better_refl].
          + exists c. split; [reflexivity|]. apply no_better_total, Nb.
        - exists d0. split; [reflexivity | apply no_better_refl]. }
      destruct (R3 _ Ee) as (d & Ed & Ld).
      exists d. split; [exact Ed|]. eapply no_better_trans; eassumption.
Qed.

Lemma no_better_takes (K : Constants) (t : CoefficientTable)
  (a b c : assignment) (z1 z2 z3 z4 : Z) :
  takes a z1 z2 z3 z4 -> takes b z1 z2 z3 z4 ->
  no_better (problem K t) a c -> no_better (problem K t) b c.
Proof.
  intros Ta Tb. unfold no_better. cbn [problem sense].
  change (objective_value (problem K t) a <= objective_value (problem K t) c
          -> objective_value (problem K t) b
             <= objective_value (problem K t) c).
  rewrite (objective_takes _ _ _ _ _ _ _ Ta).
  rewrite (objective_takes _ _ _ _ _ _ _ Tb). auto.
Qed.

(** The enumeration is an exact solver for the notebook's problem
    whenever the constants cap the total of an admissible plan at [B]. *)
Lemma exhaustive_exact (K : Constants) (t : CoefficientTable) (B : nat) :
  (forall z1 z2 z3 z4,
      admissible K t z1 z2 z3 z4 -> (z1 + z2 + z3 + z4 <= Z.of_nat B)%Z) ->
  exact_on (exhaustive B) (problem K t).
Proof.
  intro Hcap.
  destruct (search_keeps_best (problem K t) (plans B) None)
    as (R1 & R2 & _); [discriminate|].
  rewrite <- search_plans in R1, R2.
  assert (Hin : forall b, feasible (problem K t) b ->
            exists z1 z2 z3 z4,
              takes b z1 z2 z3 z4 /\
              In (z1, z2, z3, z4) (plans B) /\
              feasibleb (problem K t) (plan z1 z2 z3 z4) = true).
  { intros b Hb. apply feasible_iff in Hb.
    destruct Hb as (z1 & z2 & z3 & z4 & T & A).
    exists z1, z2, z3, z4. split; [exact T|]. split.
    - pose proof (Hcap _ _ _ _ A) as Hs. unfold admissible in A.
      apply in_plans; tauto.
    - apply feasibleb_iff, feasible_iff. exists z1, z2, z3, z4.
      split; [apply plan_takes | exact A]. }
  split; unfold exhaustive.
  - destruct (search B (problem K t)) as [c|] eqn:E; cbn [fst snd];
      [intros _ | discriminate].
    split; [apply feasibleb_iff, R1; reflexivity|].
    intros b Hb. destruct (Hin b Hb) as (z1 & z2 & z3 & z4 & T & I & F).
    destruct (R2 _ I F) as (d & Ed & Ld). injection Ed as <-.
    exact (no_better_takes K t _ b _ _ _ _ _ (plan_takes z1 z2 z3 z4) T Ld).
  - intros [a Ha] _.
    destruct (Hin a Ha) as (z1 & z2 & z3 & z4 & T & I & F).
    destruct (R2 _ I F) as (d & Ed & _). rewrite Ed. reflexivity.
Qed.

(** When the best admissible plan is unique, the enumeration returns it. *)
Lemma exhaustive_unique (K : Constants) (t : CoefficientTable) (B : nat)
  (z1 z2 z3 z4 : Z) :
  (forall y1 y2 y3 y4,
      admissible K t y1 y2 y3 y4 -> (y1 + y2 + y3 + y4 <= Z.of_nat B)%Z) ->
  admissible K t z1 z2 z3 z4 ->
  (forall y1 y2 y3 y4,
      admissible K t y1 y2 y3 y4 ->
      (profit K y1 y2 y3 y4 <= profit K z1 z2 z3 z4)%Z) ->
  (forall y1 y2 y3 y4,
      admissible K t y1 y2 y3 y4 ->
      profit K y1 y2 y3 y4 = profit K z1 z2 z3 z4 ->
      (y1, y2, y3, y4) = (z1, z2, z3, z4)) ->
  exhaustive B (problem K t) = (1%Z, plan z1 z2 z3 z4).
Proof.
  intros Hcap Hz Hbest Huniq.
  pose proof (exhaustive_exact K t B Hcap) as Hex.
  assert (Fz : feasible (problem K t) (plan z1 z2 z3 z4)).
  { apply feasible_iff. exists z1, z2, z3, z4.
    split; [apply plan_takes | exact Hz]. }
  assert (Hst : fst (exhaustive B (problem K t)) = 1%Z).
  { apply (optimum_found _ _ Hex).
    - exists (plan z1 z2 z3 z4). exact Fz.
    - apply (bounded_by K t (profit K z1 z2 z3 z4)). exact Hbest. }
  destruct (optimum_returned _ _ Hex Hst) as [Fc Hopt].
  specialize (Hopt _ Fz). revert Hst Fc Hopt. unfold exhaustive.
  destruct (search B (problem K t)) as [[[[c1 c2] c3] c4]|]; cbn [fst snd];
    [|discriminate].
  intros _ Fc Hopt. cbn [as_plan] in *.
  apply feasible_iff in Fc. destruct Fc as (y1 & y2 & y3 & y4 & T & A).
  assert (E : (c1, c2, c3, c4) = (y1, y2, y3, y4)).
  { destruct T as (T1 & T2 & T3 & T4).
    change (inject_Z c1 == inject_Z y1) in T1.
    change (inject_Z c2 == inject_Z y2) in T2.
    change (inject_Z c3 == inject_Z y3) in T3.
    change (inject_Z c4 == inject_Z y4) in T4.
    apply (proj1 (inject_Z_injective _ _)) in T1.
    apply (proj1 (inject_Z_injective _ _)) in T2.
    apply (proj1 (inject_Z_injective _ _)) in T3.
    apply (proj1 (inject_Z_injective _ _)) in T4.
    subst. reflexivity. }
  injection E as -> -> -> ->.
  unfold no_better in Hopt. cbn [problem sense] in Hopt.
  change (objective_value (problem K t) (plan z1 z2 z3 z4) <=
          objective_value (problem K t) (plan y1 y2 y3 y4)) in Hopt.
  rewrite (objective_takes _ _ _ _ _ _ _ (plan_takes z1 z2 z3 z4)) in Hopt.
  rewrite (objective_takes _ _ _ _ _ _ _ (plan_takes y1 y2 y3 y4)) in Hopt.
  rewrite <- Zle_Qle in Hopt.
  pose proof (Hbest _ _ _ _ A) as Hle.
  assert (P : profit K y1 y2 y3 y4 = profit K z1 z2 z3 z4) by lia.
  specialize (Huniq _ _ _ _ A P). injection Huniq as -> -> -> ->.
  reflexivity.
Qed.

Lemma exhaustive_exact_literals (t : CoefficientTable) :
  exact_on (exhaustive 30) (problem literals t).
Proof. apply exhaustive_exact. intros z1 z2 z3 z4. numbers. lia. Qed.

Lemma exhaustive_exact_capacities (c : Z) (t : CoefficientTable) :
  exact_on (exhaustive 30) (problem (with_capacities c) t).
Proof. apply exhaustive_exact. intros z1 z2 z3 z4. numbers. lia. Qed.
End Enumeration.

(** ** The recorded scenario *)

Section Recorded.
Local Open Scope Q_scope.

Lemma recorded_admissible : admissible literals recorded 0 6 1 8.
Proof. numbers. lia. Qed.

Lemma recorded_best (z1 z2 z3 z4 : Z) :
  admissible literals recorded z1 z2 z3 z4 ->
  (profit literals z1 z2 z3 z4 <= 220)%Z.
Proof. numbers. lia. Qed.

(** The optimum of the recorded scenario is unique. *)
Lemma recorded_unique (z1 z2 z3 z4 : Z) :
  admissible literals recorded z1 z2 z3 z4 ->
  profit literals z1 z2 z3 z4 = 220%Z ->
  z1 = 0%Z /\ z2 = 6%Z /\ z3 = 1%Z /\ z4 = 8%Z.
Proof. numbers. lia. Qed.

(** A solver that answers the recorded optimum is exact on the
    recorded problem. *)
Lemma recorded_answer_exact :
  exact_on (answer 1 (plan 0 6 1 8)) (problem literals recorded).
Proof.
  split; cbn [answer fst snd]; [intros _|reflexivity].
  split.
  - apply feasible_iff. exists 0%Z, 6%Z, 1%Z, 8%Z.
    split; [apply plan_takes | apply recorded_admissible].
  - intros b Hb. unfold no_better. cbn [problem sense].
    apply feasible_iff in Hb. destruct Hb as (z1 & z2 & z3 & z4 & T & A).
    change (objective_value (problem literals recorded) b <=
            objective_value (problem literals recorded) (plan 0 6 1 8)).
    rewrite (objective_takes _ _ b _ _ _ _ T).
    rewrite (objective_takes _ _ _ _ _ _ _ (plan_takes 0 6 1 8)).
    rewrite <- Zle_Qle. apply recorded_best in A. exact A.
Qed.
(** The reference solver finds the recorded optimum, and with it the
    notebook prints what its recorded run printed. *)
Lemma exhaustive_recorded :
  exhaustive 30 (problem literals recorded) = (1%Z, plan 0 6 1 8).
Proof.
  apply exhaustive_unique.
  - intros y1 y2 y3 y4. numbers. lia.
  - apply recorded_admissible.
  - intros y1 y2 y3 y4 A. apply recorded_best in A.
    change (profit literals 0 6 1 8) with 220%Z. exact A.
  - intros y1 y2 y3 y4 A P. change (profit literals 0 6 1 8) with 220%Z in P.
    destruct (recorded_unique _ _ _ _ A P) as (-> & -> & -> & ->).
    reflexivity.
Qed.

Lemma recorded_tape_table :
  coefficients (tape_generator (fun _ => recorded_tape)) [] =
  Some (nested recorded).
Proof. vm_compute. reflexivity. Qed.

Example recorded_run :
  run (tape_generator (fun _ => recorded_tape)) (exhaustive 30) float_str [] =
  Some [ "Production Quantities:";
         "Jeans in Beşiktaş: 6.0";
         "Jeans in Davutpaşa: 8.0";
         "T-shirts in Beşiktaş: 0.0";
         "T-shirts in Davutpaşa: 1.0";
         "Total amount used:";
         "Cutting in Beşiktaş: 6.0";
         "Cutting in Davutpaşa: 9.0";
         "Sewing in Beşiktaş: 6.0";
         "Sewing in Davutpaşa: 9.0";
         "Cloths in Beşiktaş: 24.0";
         "Cloths in Davutpaşa: 36.0";
         "Total profit: 220.0" ]%string.
Proof.
  unfold run. rewrite recorded_tape_table. cbn [obind].
  change (build (nested recorded)) with (Some (problem literals recorded)).
  cbn [obind]. unfold solve_and_report. rewrite exhaustive_recorded.
  vm_compute. reflexivity.
Qed.

(** With every capacity at 0 only the empty plan is admissible, and the
    reference solver returns it with status 1. *)
Lemma exhaustive_zero_capacities :
  exhaustive 30 (problem (with_capacities 0) recorded) = (1%Z, plan 0 0 0 0).
Proof.
  apply exhaustive_unique.
  - intros y1 y2 y3 y4. numbers. lia.
  - numbers. lia.
  - intros y1 y2 y3 y4. numbers. lia.
  - intros y1 y2 y3 y4. numbers. intros A P.
    assert (y1 = 0 /\ y2 = 0 /\ y3 = 0 /\ y4 = 0)%Z
      as (-> & -> & -> & ->) by lia.
    reflexivity.
Qed.
End Recorded.

(** C1.  In the recorded scenario (table Cutting = [10, 4], [2, 7],
    Sewing = [9, 10], [7, 8]; capacities 80, 60, 60, 75; cloth factor 4
    and supply 120; prices 10, 15, 10, 15) the plan x1 = 0, x2 = 6,
    x3 = 1, x4 = 8 satisfies all five constraints over the non-negative
    integers, its objective value is 220, and no non-negative integer
    point satisfying the five constraints has a higher objective value;
    it is the only such point with objective value 220. *)
Theorem recorded_scenario_optimum :
  nested recorded = [[[10; 4]; [2; 7]]; [[9; 10]; [7; 8]]] /\
  build (nested recorded) = Some (problem literals recorded) /\
  admissible literals recorded 0 6 1 8 /\
  feasible (problem literals recorded) (plan 0 6 1 8) /\
  profit literals 0 6 1 8 = 220 /\
  (objective_value (problem literals recorded) (plan 0 6 1 8) == 220)%Q /\
  (forall z1 z2 z3 z4,
      admissible literals recorded z1 z2 z3 z4 ->
      profit literals z1 z2 z3 z4 <= 220) /\
  (forall b,
      feasible (problem literals recorded) b ->
      (objective_value (problem literals recorded) b <= 220)%Q) /\
  (forall z1 z2 z3 z4,
      admissible literals recorded z1 z2 z3 z4 ->
      profit literals z1 z2 z3 z4 = 220 ->
      z1 = 0 /\ z2 = 6 /\ z3 = 1 /\ z4 = 8).
Proof.
  split; [reflexivity|].
  split; [reflexivity|].
  split; [apply recorded_admissible|].
  split.
  { apply feasible_iff. exists 0, 6, 1, 8.
    split; [apply plan_takes | apply recorded_admissible]. }
  split; [reflexivity|].
  split; [reflexivity|].
  split; [apply recorded_best|].
  split; [|apply recorded_unique].
  intros b Hb. apply feasible_iff in Hb.
  destruct Hb as (z1 & z2 & z3 & z4 & T & A).
  rewrite (objective_takes _ _ b _ _ _ _ T).
  change 220%Q with (inject_Z 220). rewrite <- Zle_Qle.
  apply recorded_best, A.
Qed.

Lemma recorded_scenario_optimum_witness :
  admissible literals recorded 1 5 2 7 /\ profit literals 1 5 2 7 <= 220.
Proof.
  assert (A : admissible literals recorded 1 5 2 7) by (numbers; lia).
  split; [exact A|].
  exact (proj1 (proj2 (proj2 (proj2 (proj2 (proj2 (proj2
           recorded_scenario_optimum)))))) 1 5 2 7 A).
Defined.

(** ** What the solver returns on the notebook's problem *)

Section Solved.
Local Open Scope Q_scope.

(** On the notebook's problem the solver modelled in [COIN_CMD] is
    exact: the search covers every plan the cloth constraint admits. *)
Lemma COIN_CMD_exact (t : CoefficientTable) :
  exact_on COIN_CMD (problem literals t).
Proof. exact (exhaustive_exact_literals t). Qed.

Lemma COIN_CMD_solves (t : CoefficientTable) :
  fst (COIN_CMD (problem literals t)) = 1%Z.
Proof. apply always_solved, COIN_CMD_exact. Qed.

Lemma COIN_CMD_recorded :
  COIN_CMD (problem literals recorded) = (1%Z, plan 0 6 1 8).
Proof. exact exhaustive_recorded. Qed.

Lemma recorded_tape_drawn :
  drawn (tape_generator (fun _ => recorded_tape)) recorded_tape = recorded.
Proof. vm_compute. reflexivity. Qed.

(** The constraints of the built problem at an assignment, written out. *)
Lemma constraints_hold (t : CoefficientTable) (x : assignment) :
  Forall (holds x) (constraints (problem literals t)) ->
  inject_Z (cut_B_T t) * x "x_1"%string
  + inject_Z (cut_B_J t) * x "x_2"%string <= 80 /\
  inject_Z (sew_B_T t) * x "x_1"%string
  + inject_Z (sew_B_J t) * x "x_2"%string <= 60 /\
  inject_Z (cut_D_T t) * x "x_3"%string
  + inject_Z (cut_D_J t) * x "x_4"%string <= 60 /\
  inject_Z (sew_D_T t) * x "x_3"%string
  + inject_Z (sew_D_J t) * x "x_4"%string <= 75 /\
  4 * (x "x_1"%string + x "x_2"%string + x "x_3"%string + x "x_4"%string)
  <= 120.
Proof.
  intro HC. cbn [problem constraints] in HC.
  rewrite !Forall_cons_iff in HC. unfold holds in HC.
  cbn [value lhs rhs literals cutting_Besiktas sewing_Besiktas
       cutting_Davutpasa sewing_Davutpasa cloth_per_unit cloth_supply
       x_1 x_2 x_3 x_4 decision name] in HC.
  destruct HC as (C1 & C2 & C3 & C4 & C5 & _).
  repeat split; assumption.
Qed.
End Solved.

(** C6.  For the produced solution each of the five inequalities holds
    at the solved values: the four capacity constraints with right-hand
    sides 80, 60, 60, 75 and the cloth constraint
    4 * (x1 + x2 + x3 + x4) <= 120.  This is so for every coefficient
    table: cells 5 to 8 build the problem with these five constraints,
    and the solver, modelled in [COIN_CMD], answers with status 1 and
    values that meet them. *)
Theorem solution_meets_constraints (t : CoefficientTable) :
  build (nested t) = Some (problem literals t) /\
  fst (COIN_CMD (problem literals t)) = 1 /\
  let x n := snd (COIN_CMD (problem literals t)) n in
  (inject_Z (cut_B_T t) * x "x_1"%string
   + inject_Z (cut_B_J t) * x "x_2"%string <= 80 /\
   inject_Z (sew_B_T t) * x "x_1"%string
   + inject_Z (sew_B_J t) * x "x_2"%string <= 60 /\
   inject_Z (cut_D_T t) * x "x_3"%string
   + inject_Z (cut_D_J t) * x "x_4"%string <= 60 /\
   inject_Z (sew_D_T t) * x "x_3"%string
   + inject_Z (sew_D_J t) * x "x_4"%string <= 75 /\
   4 * (x "x_1"%string + x "x_2"%string + x "x_3"%string + x "x_4"%string)
   <= 120)%Q.
Proof.
  split; [reflexivity|].
  pose proof (COIN_CMD_solves t) as Hst. split; [exact Hst|].
  destruct (optimum_returned _ _ (COIN_CMD_exact t) Hst) as [[_ HC] _].
  cbv zeta. apply constraints_hold. exact HC.
Qed.

(** C7.  In every produced solution the value of each of the four
    decision variables is a non-negative integer: the built problem
    mentions only the four variables declared in cell 6 with lower
    bound 0 and category Integer, and the values the solver, modelled
    in [COIN_CMD], leaves in them are integers from 0 up. *)
Theorem solution_is_integral (t : CoefficientTable) :
  build (nested t) = Some (problem literals t) /\
  Forall (fun v => In v [x_1; x_2; x_3; x_4] /\
                   lowBound v = Some 0%Q /\ cat v = LpInteger)
         (variables (problem literals t)) /\
  fst (COIN_CMD (problem literals t)) = 1 /\
  exists z1 z2 z3 z4 : Z,
    0 <= z1 /\ 0 <= z2 /\ 0 <= z3 /\ 0 <= z4 /\
    takes (snd (COIN_CMD (problem literals t))) z1 z2 z3 z4.
Proof.
  split; [reflexivity|].
  split.
  { unfold variables. cbn [problem objective constraints flat_map
      expr_variables lhs app].
    repeat (apply Forall_cons || apply Forall_nil);
      (split; [cbn [In]; auto 6 | split; reflexivity]). }
  pose proof (COIN_CMD_solves t) as Hst. split; [exact Hst|].
  destruct (optimum_returned _ _ (COIN_CMD_exact t) Hst) as [Hf _].
  apply feasible_iff in Hf. destruct Hf as (z1 & z2 & z3 & z4 & T & A).
  exists z1, z2, z3, z4. unfold admissible in A. tauto.
Qed.

(** C5.  For every generated coefficient table (the table of a run
    seeded with an accepted seed) the reported total profit is
    10*x1 + 15*x2 + 10*x3 + 15*x4 at the solved values, and no
    non-negative integer point satisfying the five constraints has a
    higher objective value.  The solver is the one modelled in
    [COIN_CMD]. *)
Theorem reported_profit_is_optimal
  (G : BitGenerator) (s : Z) (g0 : rng G) :
  0 <= s < 2 ^ 32 ->
  let t := drawn G (init_by_seed G s) in
  coefficients_with G s g0 = Some (nested t) /\
  build (nested t) = Some (problem literals t) /\
  exists x : assignment,
    COIN_CMD (problem literals t) = (1, x) /\
    figure "Total profit: "
      (solve_and_report COIN_CMD (problem literals t)) =
    Some (10 * x "x_1"%string + 15 * x "x_2"%string
          + 10 * x "x_3"%string + 15 * x "x_4"%string)%Q /\
    forall z1 z2 z3 z4 : Z,
      admissible literals t z1 z2 z3 z4 ->
      (inject_Z (10 * z1 + 15 * z2 + 10 * z3 + 15 * z4) <=
       10 * x "x_1"%string + 15 * x "x_2"%string
       + 10 * x "x_3"%string + 15 * x "x_4"%string)%Q.
Proof.
  intros Hs t.
  split; [apply coefficients_entries, Hs|].
  split; [reflexivity|].
  pose proof (COIN_CMD_solves t) as Hst.
  destruct (optimum_returned _ _ (COIN_CMD_exact t) Hst) as [_ Hopt].
  unfold solve_and_report.
  destruct (COIN_CMD (problem literals t)) as [st x] eqn:E.
  cbn [fst snd] in Hst, Hopt. subst st.
  exists x. split; [reflexivity|]. split; [reflexivity|].
  intros z1 z2 z3 z4 A.
  assert (F : feasible (problem literals t) (plan z1 z2 z3 z4)).
  { apply feasible_iff. exists z1, z2, z3, z4.
    split; [apply plan_takes | exact A]. }
  specialize (Hopt _ F). unfold no_better in Hopt.
  cbn [problem sense] in Hopt.
  change (objective_value (problem literals t) (plan z1 z2 z3 z4) <=
          objective_value (problem literals t) x)%Q in Hopt.
  rewrite (objective_takes _ _ _ _ _ _ _ (plan_takes z1 z2 z3 z4)) in Hopt.
  exact Hopt.
Qed.

Lemma reported_profit_is_optimal_witness :
  0 <= 21506050 < 2 ^ 32 /\
  figure "Total profit: "
    (solve_and_report COIN_CMD (problem literals recorded)) =
  Some (220 # 1)%Q.
Proof.
  split; [lia|].
  pose proof (reported_profit_is_optimal
                (tape_generator (fun _ => recorded_tape)) 21506050 []
                ltac:(lia)) as H.
  cbv zeta in H.
  change (init_by_seed (tape_generator (fun _ => recorded_tape)) 21506050)
    with recorded_tape in H.
  rewrite recorded_tape_drawn in H.
  destruct H as (_ & _ & x & E & P & _).
  rewrite COIN_CMD_recorded in E. injection E as E. subst x.
  rewrite P. vm_compute. reflexivity.
Defined.

(** ** The infeasible branch *)

(** C4 (as amended).  If the constants are such that no non-negative
    integer assignment satisfies all five constraints, the reporter
    emits exactly the failure message and no quantity, utilisation or
    profit line. *)
Theorem infeasible_reports_failure
  (solve : LpProblem -> Z * assignment) (format : Q -> string)
  (K : Constants) (t : CoefficientTable) :
  exact_on solve (problem K t) ->
  (forall z1 z2 z3 z4, ~ admissible K t z1 z2 z3 z4) ->
  build_with K (nested t) = Some (problem K t) /\
  solve_and_report solve (problem K t) =
    [Text "No feasible solution found"] /\
  map (print format) (solve_and_report solve (problem K t)) =
    ["No feasible solution found"%string].
Proof.
  intros Hex Hnone. split; [reflexivity|].
  assert (Hst : fst (solve (problem K t)) <> 1).
  { intro Hst. destruct (optimum_returned _ _ Hex Hst) as [Hf _].
    apply feasible_iff in Hf. destruct Hf as (z1 & z2 & z3 & z4 & _ & A).
    exact (Hnone _ _ _ _ A). }
  unfold solve_and_report.
  destruct (solve (problem K t)) as [st x]. cbn [fst] in Hst.
  unfold cell10. apply Z.eqb_neq in Hst. rewrite Hst. split; reflexivity.
Qed.

Lemma negative_capacity_exact :
  exact_on (answer LpStatusInfeasible (plan 0 0 0 0))
           (problem (with_capacities (-1)) recorded).
Proof.
  split; cbn [answer fst snd].
  - discriminate.
  - intros [a Ha] _. exfalso. apply feasible_iff in Ha.
    destruct Ha as (z1 & z2 & z3 & z4 & _ & A). revert A. numbers. lia.
Qed.

Lemma infeasible_reports_failure_witness :
  map (print float_str)
    (solve_and_report (answer LpStatusInfeasible (plan 0 0 0 0))
       (problem (with_capacities (-1)) recorded)) =
  ["No feasible solution found"%string].
Proof.
  refine (proj2 (proj2 (infeasible_reports_failure _ float_str _ _
                          negative_capacity_exact _))).
  intros z1 z2 z3 z4. numbers. lia.
Defined.

(** C4 as stated does not hold for its own example: with every capacity
    set to 0 and the positive recorded coefficients, the empty plan
    satisfies all five constraints, an exact solver returns status 1 and
    the report is the success report, not the failure message. *)
Lemma zero_capacities_are_feasible :
  admissible all_zero recorded 0 0 0 0 /\
  admissible (with_capacities 0) recorded 0 0 0 0 /\
  feasible (problem (with_capacities 0) recorded) (plan 0 0 0 0) /\
  (forall solve : LpProblem -> Z * assignment,
    exact_on solve (problem (with_capacities 0) recorded) ->
    solve_and_report solve (problem (with_capacities 0) recorded) <>
      [Text "No feasible solution found"] /\
    figures (solve_and_report solve (problem (with_capacities 0) recorded))
      = 11%nat) /\
  map (print float_str)
    (solve_and_report (exhaustive 30) (problem (with_capacities 0) recorded)) =
  [ "Production Quantities:";
    "Jeans in Beşiktaş: 0.0";
    "Jeans in Davutpaşa: 0.0";
    "T-shirts in Beşiktaş: 0.0";
    "T-shirts in Davutpaşa: 0.0";
    "Total amount used:";
    "Cutting in Beşiktaş: 0.0";
    "Cutting in Davutpaşa: 0.0";
    "Sewing in Beşiktaş: 0.0";
    "Sewing in Davutpaşa: 0.0";
    "Cloths in Beşiktaş: 0.0";
    "Cloths in Davutpaşa: 0.0";
    "Total profit: 0.0" ]%string.
Proof.
  assert (A : admissible (with_capacities 0) recorded 0 0 0 0)
    by (numbers; lia).
  assert (F : feasible (problem (with_capacities 0) recorded) (plan 0 0 0 0)).
  { apply feasible_iff. exists 0, 0, 0, 0. split; [apply plan_takes|exact A]. }
  split; [unfold admissible, all_zero; cbn; lia|].
  split; [exact A|]. split; [exact F|]. split.
  - intros solve Hex.
    assert (Hst : fst (solve (problem (with_capacities 0) recorded)) = 1).
    { apply (optimum_found _ _ Hex).
      - exists (plan 0 0 0 0). exact F.
      - apply (bounded_by _ _ 450). intros.
        eapply profit_capped; eassumption. }
    unfold solve_and_report.
    destruct (solve (problem (with_capacities 0) recorded)) as [st x].
    cbn [fst] in Hst. subst st. split; [discriminate | reflexivity].
  - unfold solve_and_report. rewrite exhaustive_zero_capacities.
    vm_compute. reflexivity.
Qed.

(** ** The distribution of a table entry *)

Ltac fractions :=
  unfold Qlt, Qle, Qeq, Qmult, Qminus, Qplus, Qopp, inject_Z;
  cbn [Qnum Qden Pos.mul].

Section Distribution.
Local Open Scope Q_scope.

(** Rounding and casting keep a value of [1, 10] in [1, 10]; this
    covers whatever value [uniform] computes between its bounds. *)
Lemma rounded_range (u : Q) :
  1 <= u -> u <= 10 -> (1 <= astype_int (round u) <= 10)%Z.
Proof.
  intros Hlo Hhi.
  destruct (Qlt_le_dec u 10) as [Hlt|Hge].
  - pose proof (Qfloor_le u) as Hf.
    pose proof (Qlt_floor u) as Hc. rewrite inject_Z_plus in Hc.
    change (inject_Z 1) with 1 in Hc.
    assert (1 <= Qfloor u)%Z.
    { apply Zlt_succ_of_Q. change (inject_Z 1) with 1. lra. }
    assert (Qfloor u < 10)%Z.
    { rewrite Zlt_Qlt. change (inject_Z 10) with 10. lra. }
    destruct (round_integral u) as [E|E]; rewrite E, astype_int_inject; lia.
  - assert (E : round u = inject_Z 10).
    { apply round_iff. left. change (inject_Z 10) with 10. split; lra. }
    rewrite E, astype_int_inject. lia.
Qed.

Lemma entry_range (x : Q) : 0 <= x -> x < 1 -> (1 <= entry x <= 10)%Z.
Proof.
  intros Hlo Hhi. unfold entry.
  destruct (scaled_draw x Hlo Hhi) as (H1 & H10 & _).
  apply rounded_range; assumption.
Qed.

Lemma count_below_interval (p : Z -> bool) (a b : Z) (n : nat) :
  (0 <= a)%Z -> (a <= b + 1)%Z -> (b < Z.of_nat n)%Z ->
  (forall k, (0 <= k < Z.of_nat n)%Z ->
             (p k = true <-> (a <= k <= b)%Z)) ->
  count_below p n = (b - a + 1)%Z.
Proof.
  intros Ha Hab Hb Hp.
  assert (Hm : forall m : nat, (m <= n)%nat ->
            count_below p m = Z.max 0 (Z.min (b + 1) (Z.of_nat m) - a)).
  { induction m as [|m IH]; intro Hle.
    - simpl. lia.
    - cbn [count_below]. rewrite IH by lia.
      specialize (Hp (Z.of_nat m) ltac:(lia)).
      destruct (p (Z.of_nat m)).
      + assert (a <= Z.of_nat m <= b)%Z by (apply Hp; reflexivity). lia.
      + assert (~ (a <= Z.of_nat m <= b)%Z)
          by (intro C; apply Hp in C; discriminate).
        lia. }
  rewrite (Hm n (le_n n)). lia.
Qed.

(** The entry is monotone along the draws k / N. *)
Lemma entry_fraction_mono (N : positive) (k k' : Z) :
  (0 <= k)%Z -> (k <= k')%Z -> (k' < Zpos N)%Z ->
  (entry (k # N) <= entry (k' # N))%Z.
Proof.
  intros H0 Hk HN. apply entry_mono; fractions; nia.
Qed.

(** The draws that give the entry [v] form one run [lo .. hi], found
    from the entries at its two ends and just outside them. *)
Lemma outcomes_run (N : positive) (v lo hi : Z) :
  (0 <= lo)%Z -> (lo <= hi)%Z -> (hi < Zpos N)%Z ->
  entry (lo # N) = v -> entry (hi # N) = v ->
  (lo = 0%Z \/ (entry ((lo - 1) # N) < v)%Z) ->
  (hi = (Zpos N - 1)%Z \/ (v < entry ((hi + 1) # N))%Z) ->
  outcomes N v = (hi - lo + 1)%Z.
Proof.
  intros H0 Hle HN Elo Ehi Below Above. unfold outcomes.
  apply count_below_interval; rewrite ?positive_nat_Z; try lia.
  intros k Hk. rewrite Z.eqb_eq. split.
  - intro E. split.
    + destruct (Z.le_gt_cases lo k) as [L|L]; [exact L|]. exfalso.
      destruct Below as [Z0|B]; [lia|].
      pose proof (entry_fraction_mono N k (lo - 1)
                    ltac:(lia) ltac:(lia) ltac:(lia)). lia.
    + destruct (Z.le_gt_cases k hi) as [L|L]; [exact L|]. exfalso.
      destruct Above as [Z0|A]; [lia|].
      pose proof (entry_fraction_mono N (hi + 1) k
                    ltac:(lia) ltac:(lia) ltac:(lia)). lia.
  - intros [L U].
    pose proof (entry_fraction_mono N lo k ltac:(lia) L ltac:(lia)).
    pose proof (entry_fraction_mono N k hi ltac:(lia) U HN). lia.
Qed.

(** Of the 2^53 equally likely draws, how many give each entry. *)
Lemma outcomes_two53 :
  (outcomes two53 1 = 500399958596722 /\
   outcomes two53 2 = 1000799917193444 /\
   outcomes two53 3 = 1000799917193443 /\
   outcomes two53 4 = 1000799917193445 /\
   outcomes two53 5 = 1000799917193442 /\
   outcomes two53 6 = 1000799917193445 /\
   outcomes two53 7 = 1000799917193442 /\
   outcomes two53 8 = 1000799917193445 /\
   outcomes two53 9 = 1000799917193442 /\
   outcomes two53 10 = 500399958596722)%Z.
Proof.
  repeat apply conj.
  - apply (outcomes_run two53 1 0 500399958596721);
      [lia | lia | reflexivity | vm_compute; reflexivity
      | vm_compute; reflexivity | left; reflexivity
      | right; vm_compute; reflexivity].
  - apply (outcomes_run two53 2 500399958596722 1501199875790165);
      [lia | lia | reflexivity | vm_compute; reflexivity
      | vm_compute; reflexivity | right; vm_compute; reflexivity
      | right; vm_compute; reflexivity].
  - apply (outcomes_run two53 3 1501199875790166 2501999792983608);
      [lia | lia | reflexivity | vm_compute; reflexivity
      | vm_compute; reflexivity | right; vm_compute; reflexivity
      | right; vm_compute; reflexivity].
  - apply (outcomes_run two53 4 2501999792983609 3502799710177053);
      [lia | lia | reflexivity | vm_compute; reflexivity
      | vm_compute; reflexivity | right; vm_compute; reflexivity
      | right; vm_compute; reflexivity].
  - apply (outcomes_run two53 5 3502799710177054 4503599627370495);
      [lia | lia | reflexivity | vm_compute; reflexivity
      | vm_compute; reflexivity | right; vm_compute; reflexivity
      | right; vm_compute; reflexivity].
  - apply (outcomes_run two53 6 4503599627370496 5504399544563940);
      [lia | lia | reflexivity | vm_compute; reflexivity
      | vm_compute; reflexivity | right; vm_compute; reflexivity
      | right; vm_compute; reflexivity].
  - apply (outcomes_run two53 7 5504399544563941 6505199461757382);
      [lia | lia | reflexivity | vm_compute; reflexivity
      | vm_compute; reflexivity | right; vm_compute; reflexivity
      | right; vm_compute; reflexivity].
  - apply (outcomes_run two53 8 6505199461757383 7505999378950827);
      [lia | lia | reflexivity | vm_compute; reflexivity
      | vm_compute; reflexivity | right; vm_compute; reflexivity
      | right; vm_compute; reflexivity].
  - apply (outcomes_run two53 9 7505999378950828 8506799296144269);
      [lia | lia | reflexivity | vm_compute; reflexivity
      | vm_compute; reflexivity | right; vm_compute; reflexivity
      | right; vm_compute; reflexivity].
  - apply (outcomes_run two53 10 8506799296144270 9007199254740991);
      [lia | lia | reflexivity | vm_compute; reflexivity
      | vm_compute; reflexivity | right; vm_compute; reflexivity
      | left; reflexivity].
Qed.

Lemma fewer_ones_than_twos : (outcomes two53 1 < outcomes two53 2)%Z.
Proof.
  destruct outcomes_two53 as (E1 & E2 & _). rewrite E1, E2. reflexivity.
Qed.
End Distribution.

(** C3 (as amended).  For every seed that [np.random.seed] accepts the
    generator produces eight integers, each in [1, 10], and cell 4
    reshapes them into the 2 x 2 x 2 table of positive integers.  The
    ten values are not equally likely: of the 2^53 equally likely draws
    of [random_sample], fewer give the entry 1 than give the entry 2. *)
Theorem generated_entries (G : BitGenerator) (s : Z) (g0 : rng G) :
  0 <= s < 2 ^ 32 ->
  let g := init_by_seed G s in
  coefficients_with G s g0 =
  Some [[[entry (sample_at G g 0); entry (sample_at G g 1)];
         [entry (sample_at G g 4); entry (sample_at G g 5)]];
        [[entry (sample_at G g 2); entry (sample_at G g 3)];
         [entry (sample_at G g 6); entry (sample_at G g 7)]]] /\
  coefficients_with G s g0 = Some (nested (drawn G g)) /\
  (forall i : nat, 1 <= entry (sample_at G g i) <= 10) /\
  outcomes two53 1 < outcomes two53 2.
Proof.
  intros Hs g.
  apply conj; [apply coefficients_entries, Hs|].
  apply conj; [apply coefficients_entries, Hs|].
  apply conj; [|exact fewer_ones_than_twos].
  intro i. apply entry_range; apply sample_at_range.
Qed.

Lemma generated_entries_witness :
  0 <= 21506050 < 2 ^ 32 /\
  coefficients_with (tape_generator (fun _ => recorded_tape)) 21506050 [] =
  Some [[[10; 4]; [2; 7]]; [[9; 10]; [7; 8]]].
Proof.
  apply conj; [lia|].
  rewrite (proj1 (generated_entries
                    (tape_generator (fun _ => recorded_tape)) 21506050 []
                    ltac:(lia))).
  vm_compute. reflexivity.
Defined.

(** C3 as stated fails: the ten values are not equally likely.  Of the
    2^53 equally likely draws of [random_sample], 500399958596722 give
    the entry 1 and 1000799917193444 give the entry 2.  Nor is there a
    table for every seed: [np.random.seed] raises on -1. *)
Lemma entries_not_equally_likely :
  outcomes two53 1 = 500399958596722 /\
  outcomes two53 2 = 1000799917193444 /\
  ~ (forall v w : Z,
       1 <= v <= 10 -> 1 <= w <= 10 -> outcomes two53 v = outcomes two53 w) /\
  coefficients_with (tape_generator (fun _ => recorded_tape)) (-1) [] = None.
Proof.
  destruct outcomes_two53 as (E1 & E2 & _).
  apply conj; [exact E1|]. apply conj; [exact E2|].
  apply conj; [|reflexivity].
  intro H. specialize (H 1 2 ltac:(lia) ltac:(lia)).
  rewrite E1, E2 in H. discriminate H.
Qed.

(** ** The report *)

(** C2 (as amended).  On success (status 1) the output of cell 10 is
    exactly thirteen lines: the heading "Production Quantities:", four
    production quantities, the heading "Total amount used:", four
    utilisation figures, two cloth figures and the profit, that is eleven
    labelled figures; otherwise it is the single line
    "No feasible solution found". *)
Theorem report_lines
  (solve : LpProblem -> Z * assignment) (format : Q -> string)
  (model : LpProblem) :
  let x n := snd (solve model) n in
  let out := solve_and_report solve model in
  (fst (solve model) = 1 /\
   List.length out = 13%nat /\ figures out = 11%nat /\
   map (print format) out =
   [ "Production Quantities:";
     "Jeans in Beşiktaş: " ++ format (x "x_2");
     "Jeans in Davutpaşa: " ++ format (x "x_4");
     "T-shirts in Beşiktaş: " ++ format (x "x_1");
     "T-shirts in Davutpaşa: " ++ format (x "x_3");
     "Total amount used:";
     "Cutting in Beşiktaş: " ++ format (x "x_1" + x "x_2")%Q;
     "Cutting in Davutpaşa: " ++ format (x "x_3" + x "x_4")%Q;
     "Sewing in Beşiktaş: " ++ format (x "x_1" + x "x_2")%Q;
     "Sewing in Davutpaşa: " ++ format (x "x_3" + x "x_4")%Q;
     "Cloths in Beşiktaş: " ++ format (4 * (x "x_1" + x "x_2"))%Q;
     "Cloths in Davutpaşa: " ++ format (4 * (x "x_3" + x "x_4"))%Q;
     "Total profit: " ++ format (objective_value model (x : assignment))
   ]%string)
  \/
  (fst (solve model) <> 1 /\
   List.length out = 1%nat /\ figures out = 0%nat /\
   map (print format) out = [ "No feasible solution found"%string ]).
Proof.
  intros x out. subst x out. unfold solve_and_report.
  destruct (solve model) as [st a]. cbn [fst snd].
  unfold cell10. destruct (Z.eqb_spec st 1) as [E|E].
  - left. repeat split; try assumption.
  - right. repeat split; assumption.
Qed.

(** C2 as stated fails: the success report of the recorded scenario has
    eleven labelled figures on thirteen lines, not nine. *)
Lemma success_report_not_nine_lines :
  figures recorded_report = 11%nat /\
  figures recorded_report <> 9%nat /\
  List.length recorded_report = 13%nat /\
  map (print float_str) recorded_report =
  [ "Production Quantities:";
    "Jeans in Beşiktaş: 6.0";
    "Jeans in Davutpaşa: 8.0";
    "T-shirts in Beşiktaş: 0.0";
    "T-shirts in Davutpaşa: 1.0";
    "Total amount used:";
    "Cutting in Beşiktaş: 6.0";
    "Cutting in Davutpaşa: 9.0";
    "Sewing in Beşiktaş: 6.0";
    "Sewing in Davutpaşa: 9.0";
    "Cloths in Beşiktaş: 24.0";
    "Cloths in Davutpaşa: 36.0";
    "Total profit: 220.0" ]%string.
Proof.
  split; [reflexivity|]. split; [discriminate|]. split; [reflexivity|].
  vm_compute. reflexivity.
Qed.

(** C9.  In every report the printed "Cutting" and "Sewing" figures of
    a site are equal to each other and to the site's total production,
    x1 + x2 for Beşiktaş and x3 + x4 for Davutpaşa: the unweighted sum
    of the two quantities, whatever the coefficient table. *)
Theorem utilisation_is_unit_count
  (solve : LpProblem -> Z * assignment) (model : LpProblem) :
  fst (solve model) = 1 ->
  let x n := snd (solve model) n in
  let out := solve_and_report solve model in
  figure "T-shirts in Beşiktaş: " out = Some (x "x_1"%string) /\
  figure "Jeans in Beşiktaş: " out = Some (x "x_2"%string) /\
  figure "T-shirts in Davutpaşa: " out = Some (x "x_3"%string) /\
  figure "Jeans in Davutpaşa: " out = Some (x "x_4"%string) /\
  figure "Cutting in Beşiktaş: " out
    = Some (x "x_1"%string + x "x_2"%string)%Q /\
  figure "Sewing in Beşiktaş: " out
    = Some (x "x_1"%string + x "x_2"%string)%Q /\
  figure "Cutting in Davutpaşa: " out
    = Some (x "x_3"%string + x "x_4"%string)%Q /\
  figure "Sewing in Davutpaşa: " out
    = Some (x "x_3"%string + x "x_4"%string)%Q.
Proof.
  intros Hst x out. subst x out. unfold solve_and_report.
  destruct (solve model) as [st a]. cbn [fst snd] in *. subst st.
  repeat split.
Qed.

Lemma utilisation_is_unit_count_witness :
  figure "Cutting in Beşiktaş: "
    (solve_and_report (answer 1 (plan 0 6 1 8)) (problem literals recorded))
  = Some (plan 0 6 1 8 "x_1"%string + plan 0 6 1 8 "x_2"%string)%Q.
Proof.
  exact (proj1 (proj2 (proj2 (proj2 (proj2
           (utilisation_is_unit_count (answer 1 (plan 0 6 1 8))
              (problem literals recorded) eq_refl)))))).
Defined.

(** In the recorded scenario the hours the plan really takes differ
    from the printed figure: cutting at Beşiktaş needs 24 hours, the
    report prints 6. *)
Example recorded_cutting_load :
  0 * cut_B_T recorded + 6 * cut_B_J recorded = 24 /\
  figure "Cutting in Beşiktaş: "
    (solve_and_report (answer 1 (plan 0 6 1 8)) (problem literals recorded))
  = Some (inject_Z 0 + inject_Z 6)%Q.
Proof. split; reflexivity. Qed.


(** * Further properties of the cells *)

Import Shapes.

(** ** Cell 4 on frames of any width *)

Section Extraction.
Local Open Scope list_scope.

Lemma label_eqb_eq (a b : label) : label_eqb a b = true <-> a = b.
Proof.
  destruct a as [a1 a2], b as [b1 b2]. unfold label_eqb. cbn [fst snd].
  rewrite andb_true_iff, !String.eqb_eq. split.
  - intros [-> ->]. reflexivity.
  - intro E. injection E as -> ->. split; reflexivity.
Qed.

(** Under distinct labels a Series returns the value stored with a label. *)
Lemma series_get_in (s : Series) (c : label) (v : Z) :
  NoDup (map fst s) -> In (c, v) s -> series_get s c = Some v.
Proof.
  induction s as [|[l w] s IH]; intros Hnd Hin; [destruct Hin|].
  cbn [series_get]. cbn [map fst] in Hnd. inversion Hnd as [|? ? Hnot Hnd']; subst.
  destruct Hin as [E|Hin].
  - injection E as -> ->.
    assert (label_eqb c c = true) as -> by (apply label_eqb_eq; reflexivity).
    reflexivity.
  - destruct (label_eqb l c) eqn:El.
    + apply label_eqb_eq in El. subst l. exfalso. apply Hnot.
      apply in_map_iff. exists (c, v). split; [reflexivity | exact Hin].
    + apply IH; assumption.
Qed.

Lemma pair_induction {A : Type} (P : list A -> Prop) :
  P [] -> (forall a, P [a]) ->
  (forall a b l, P l -> P (a :: b :: l)) ->
  forall l, P l.
Proof.
  intros H0 H1 H2 l.
  assert (H : P l /\ forall a, P (a :: l)).
  { induction l as [|x l [IHl IHx]]; split; auto. }
  exact (proj1 H).
Qed.

Lemma even_mod2 (m : nat) : ((2 * m) mod 2 = 0)%nat.
Proof. rewrite Nat.mul_comm. apply Nat.Div0.mod_mul. Qed.

Lemma odd_mod2 (m : nat) : ((S (2 * m)) mod 2 = 1)%nat.
Proof.
  change (S (2 * m)) with (1 + 2 * m)%nat.
  rewrite (Nat.mul_comm 2 m), Nat.Div0.mod_add. reflexivity.
Qed.

(** The inner loop from an even column index on: the pairs of the
    remaining values are appended. *)
Lemma inner_loop (row : Series) (cv : list (label * Z)) :
  (forall c v, In (c, v) cv -> series_get row c = Some v) ->
  forall (m : nat) (acc : list (list Z)) (sub : list Z),
  exists sub',
    for_each (inner_body row)
      (combine (seq (2 * m) (List.length cv)) (map fst cv)) (acc, sub) =
    Some (acc ++ pairs (map snd cv), sub').
Proof.
  induction cv as [|[c1 v1]|[c1 v1] [c2 v2] cv IH] using pair_induction;
    intros Hget m acc sub.
  - exists sub. cbn. rewrite app_nil_r. reflexivity.
  - exists [v1]. cbn [List.length seq map fst snd combine for_each pairs].
    unfold inner_body at 1. rewrite even_mod2. cbn [Nat.eqb].
    rewrite (Hget c1 v1 (or_introl eq_refl)). cbn [obind app].
    rewrite app_nil_r. reflexivity.
  - destruct (IH (fun c v H => Hget c v (or_intror (or_intror H)))
                (S m) (acc ++ [[v1; v2]]) [v1; v2]) as [sub' E].
    exists sub'.
    cbn [List.length seq map fst snd combine for_each pairs].
    unfold inner_body at 1. rewrite even_mod2. cbn [Nat.eqb].
    rewrite (Hget c1 v1 (or_introl eq_refl)). cbn [obind app].
    unfold inner_body at 1. rewrite odd_mod2. cbn [Nat.eqb].
    rewrite (Hget c2 v2 (or_intror (or_introl eq_refl))). cbn [obind app].
    replace (S (S (2 * m))) with (2 * S m)%nat by lia.
    rewrite E, <- app_assoc. reflexivity.
Qed.
Lemma combine_fst {A B : Type} (l : list A) (l' : list B) :
  List.length l' = List.length l -> map fst (combine l l') = l.
Proof.
  revert l'. induction l as [|a l IH]; intros [|b l'] H; cbn in *;
    try reflexivity; try discriminate.
  f_equal. apply IH. lia.
Qed.

Lemma combine_snd {A B : Type} (l : list A) (l' : list B) :
  List.length l' = List.length l -> map snd (combine l l') = l'.
Proof.
  revert l'. induction l as [|a l IH]; intros [|b l'] H; cbn in *;
    try reflexivity; try discriminate.
  f_equal. apply IH. lia.
Qed.

(** One row of the outer loop. *)
Lemma outer_step (cols : list label) (vals : list Z) (lbl : string)
  (i : nat) (acc : list (list (list Z))) (sub : list Z) :
  NoDup cols -> List.length vals = List.length cols ->
  exists sub',
    outer_body cols (acc, sub) (i, (lbl, combine cols vals)) =
    Some (acc ++ [pairs vals], sub').
Proof.
  intros Hnd Hlen.
  destruct (inner_loop (combine cols vals) (combine cols vals)) with
    (m := 0%nat) (acc := @nil (list Z)) (sub := sub) as [sub' E].
  { intros c v Hin. apply series_get_in; [|exact Hin].
    rewrite combine_fst by exact Hlen. exact Hnd. }
  exists sub'. unfold outer_body. cbn [snd]. unfold enumerate.
  rewrite combine_fst, combine_snd in E by exact Hlen.
  rewrite length_combine, Hlen, Nat.min_id in E.
  change (2 * 0)%nat with 0%nat in E. rewrite E. reflexivity.
Qed.

Lemma outer_loop (cols : list label) :
  NoDup cols ->
  forall (vals : list (list Z)) (idx : list string) (k : nat)
         (acc : list (list (list Z))) (sub : list Z),
    List.length idx = List.length vals ->
    Forall (fun r => List.length r = List.length cols) vals ->
    exists sub',
      for_each (outer_body cols)
        (combine (seq k (List.length vals))
           (combine idx (map (combine cols) vals))) (acc, sub) =
      Some (acc ++ map pairs vals, sub').
Proof.
  intro Hnd. induction vals as [|v vs IH]; intros idx k acc sub Hlen Hall.
  - exists sub. cbn. rewrite app_nil_r. reflexivity.
  - destruct idx as [|l ls]; [discriminate|].
    inversion Hall as [|? ? Hv Hvs]; subst.
    destruct (outer_step cols v l k acc sub Hnd Hv) as [sub1 E1].
    destruct (IH ls (S k) (acc ++ [pairs v]) sub1) as [sub' E];
      [cbn in Hlen; lia | exact Hvs |].
    exists sub'.
    cbn [List.length seq map combine for_each].
    rewrite E1. cbn [obind]. rewrite E, <- app_assoc. reflexivity.
Qed.
End Extraction.

Lemma cell4_pairs (df : DataFrame) :
  well_formed df -> cell4 df = Some (map pairs (values df)).
Proof.
  intros (Hnd & Hlen & Hall). unfold cell4, enumerate, iterrows.
  destruct (outer_loop (columns df) Hnd (values df) (index df) 0 [] []
              Hlen Hall) as [sub' E].
  rewrite length_combine, length_map, Hlen, Nat.min_id.
  unfold Series, label in *. rewrite E.
  reflexivity.
Qed.

Lemma pairs_shape {A : Type} (l : list A) :
  List.length (pairs l) = (List.length l / 2)%nat /\
  Forall (fun q => List.length q = 2%nat) (pairs l).
Proof.
  induction l as [|a|a b l [IHn IHf]] using pair_induction.
  - split; [reflexivity | constructor].
  - split; [reflexivity | constructor].
  - cbn [pairs List.length]. split.
    + rewrite IHn.
      change (S (S (List.length l))) with (1 * 2 + List.length l)%nat.
      rewrite Nat.div_add_l by discriminate. reflexivity.
    + constructor; [reflexivity | exact IHf].
Qed.

(** X1.  On every well-formed frame, whatever its numbers of rows and
    columns, cell 4 returns for each row the list of its consecutive
    pairs of values: one plane per row, each of (number of columns / 2)
    pairs.  With an odd number of columns the last column is left out
    without an error. *)
Theorem cell4_pairs_each_row (df : DataFrame) :
  well_formed df ->
  cell4 df = Some (map pairs (values df)) /\
  List.length (map pairs (values df)) = List.length (index df) /\
  Forall (fun plane =>
            List.length plane = (List.length (columns df) / 2)%nat /\
            Forall (fun q => List.length q = 2%nat) plane)
         (map pairs (values df)).
Proof.
  intro W. split; [apply cell4_pairs, W|].
  destruct W as (_ & Hlen & Hall).
  split; [rewrite length_map; symmetry; exact Hlen|].
  apply Forall_map. apply (Forall_impl _ (P := fun r =>
    List.length r = List.length (columns df))); [|exact Hall].
  intros r Hr. rewrite <- Hr. apply pairs_shape.
Qed.

Lemma cell4_pairs_each_row_witness :
  well_formed three_columns /\
  cell4 three_columns = Some [[[1; 2]]; [[4; 5]]].
Proof.
  assert (W : well_formed three_columns).
  { split; [|split].
    - repeat constructor; cbn; intuition discriminate.
    - reflexivity.
    - repeat constructor. }
  split; [exact W|]. exact (proj1 (cell4_pairs_each_row three_columns W)).
Defined.

(** ** Cell 8 on nested lists of any shape *)

(** X2.  Cell 8 reads exactly eight entries of the nested list, those
    with all three indices below 2.  When all eight exist the problem
    is built from them alone, whatever else the list holds; when one is
    missing the cell raises (IndexError). *)
Theorem build_reads_eight_entries
  (K : Constants) (constraints : list (list (list Z))) :
  (exists t : CoefficientTable,
      (forall (p : Process) (s : Site) (x : Product),
          at3 constraints (process_index p) (site_index s) (product_index x)
          = at3 (nested t) (process_index p) (site_index s)
              (product_index x)) /\
      build_with K constraints = Some (problem K t)) \/
  ((exists (p : Process) (s : Site) (x : Product),
      at3 constraints (process_index p) (site_index s) (product_index x)
      = None) /\
   build_with K constraints = None).
Proof.
  unfold build_with, cell8_with.
  destruct (at3 constraints 0 0 0) as [c000|] eqn:E000;
    [|right; split; [exists Cutting, AtBesiktas, Tshirts; exact E000
                    |reflexivity]].
  destruct (at3 constraints 0 0 1) as [c001|] eqn:E001;
    [|right; split; [exists Cutting, AtBesiktas, Jeans; exact E001
                    |reflexivity]].
  destruct (at3 constraints 1 0 0) as [c100|] eqn:E100;
    [|right; split; [exists Sewing, AtBesiktas, Tshirts; exact E100
                    |reflexivity]].
  destruct (at3 constraints 1 0 1) as [c101|] eqn:E101;
    [|right; split; [exists Sewing, AtBesiktas, Jeans; exact E101
                    |reflexivity]].
  destruct (at3 constraints 0 1 0) as [c010|] eqn:E010;
    [|right; split; [exists Cutting, AtDavutpasa, Tshirts; exact E010
                    |reflexivity]].
  destruct (at3 constraints 0 1 1) as [c011|] eqn:E011;
    [|right; split; [exists Cutting, AtDavutpasa, Jeans; exact E011
                    |reflexivity]].
  destruct (at3 constraints 1 1 0) as [c110|] eqn:E110;
    [|right; split; [exists Sewing, AtDavutpasa, Tshirts; exact E110
                    |reflexivity]].
  destruct (at3 constraints 1 1 1) as [c111|] eqn:E111;
    [|right; split; [exists Sewing, AtDavutpasa, Jeans; exact E111
                    |reflexivity]].
  left.
  exists {| cut_B_T := c000; cut_B_J := c001; cut_D_T := c010;
            cut_D_J := c011; sew_B_T := c100; sew_B_J := c101;
            sew_D_T := c110; sew_D_J := c111 |}.
  split; [|reflexivity].
  intros [] [] []; cbn [process_index site_index product_index]; assumption.
Qed.

(** X3.  Cells 4 and 8 in sequence: on a well-formed frame cell 8
    succeeds exactly when the frame has at least two rows and at least
    four columns; with fewer it raises (IndexError), and further rows
    and columns are not read. *)
Theorem cell8_needs_two_rows_four_columns (df : DataFrame) :
  well_formed df ->
  ((2 <= List.length (values df))%nat /\
   (4 <= List.length (columns df))%nat) <->
  exists model, (let? constraints := cell4 df in build constraints)
                = Some model.
Proof.
  intro W. rewrite (cell4_pairs df W). cbn [obind].
  destruct W as (_ & _ & Hall).
  destruct (values df) as [|r1 [|r2 rest]].
  - split; [intros [H _]; cbn in H; lia | intros [m E]; discriminate E].
  - split; [intros [H _]; cbn in H; lia|].
    intros [m E]. exfalso. revert E.
    destruct r1 as [|a1 [|b1 r1]]; cbn; discriminate.
  - inversion Hall as [|? ? H1 Hall']; subst.
    inversion Hall' as [|? ? H2 _]; subst.
    destruct r1 as [|a1 [|b1 [|c1 [|d1 r1]]]];
      destruct r2 as [|a2 [|b2 [|c2 [|d2 r2]]]];
      cbn [List.length] in H1, H2; try lia;
      (split;
       [ intros [_ H]; try lia; eexists; reflexivity
       | intros [m E]; try discriminate E; cbn [List.length]; lia ]).
Qed.

Lemma cell8_needs_two_rows_four_columns_witness :
  well_formed (frame recorded) /\
  exists model, (let? constraints := cell4 (frame recorded) in
                 build constraints) = Some model.
Proof.
  assert (W : well_formed (frame recorded)).
  { split; [|split].
    - repeat constructor; cbn; intuition discriminate.
    - reflexivity.
    - repeat constructor. }
  split; [exact W|].
  apply (proj1 (cell8_needs_two_rows_four_columns (frame recorded) W)).
  split; cbn; lia.
Defined.

(** ** The report and the solver's status *)

Section Status.
Local Open Scope Q_scope.

Lemma report_failure_iff (solve : LpProblem -> Z * assignment)
  (model : LpProblem) :
  solve_and_report solve model = [Text "No feasible solution found"] <->
  fst (solve model) <> 1%Z.
Proof.
  unfold solve_and_report. destruct (solve model) as [st a]. cbn [fst].
  unfold cell10. destruct (Z.eqb_spec st 1) as [E|E]; split.
  - discriminate.
  - intro H. contradiction.
  - intros _. exact E.
  - reflexivity.
Qed.

Lemma feasible_plan (K : Constants) (t : CoefficientTable)
  (z1 z2 z3 z4 : Z) :
  admissible K t z1 z2 z3 z4 -> feasible (problem K t) (plan z1 z2 z3 z4).
Proof.
  intro A. apply feasible_iff. exists z1, z2, z3, z4.
  split; [apply plan_takes | exact A].
Qed.

Lemma objective_plan (K : Constants) (t : CoefficientTable)
  (z1 z2 z3 z4 : Z) :
  objective_value (problem K t) (plan z1 z2 z3 z4) ==
  inject_Z (profit K z1 z2 z3 z4).
Proof. apply objective_takes, plan_takes. Qed.

(** Without cloth and without hours nothing bounds the profit. *)
Lemma unlimited_admissible (z1 z2 z3 z4 : Z) :
  (0 <= z1)%Z -> (0 <= z2)%Z -> (0 <= z3)%Z -> (0 <= z4)%Z ->
  admissible unlimited (constant_table 0) z1 z2 z3 z4.
Proof.
  intros. unfold admissible, unlimited, constant_table. cbn. lia.
Qed.

Lemma unlimited_not_bounded :
  ~ bounded (problem unlimited (constant_table 0)).
Proof.
  intros [B HB].
  pose (z := (Z.max 0 (Qceiling B) + 1)%Z).
  assert (Hz : (0 <= z)%Z) by (unfold z; lia).
  specialize (HB (plan z 0 0 0)
                (feasible_plan _ _ _ _ _ _
                   (unlimited_admissible z 0 0 0 Hz ltac:(lia) ltac:(lia)
                      ltac:(lia)))).
  cbn [problem sense] in HB.
  change (objective_value (problem unlimited (constant_table 0))
            (plan z 0 0 0) <= B) in HB.
  rewrite objective_plan in HB.
  pose proof (Qle_ceiling B) as HC.
  assert (HZ : (Qceiling B < profit unlimited z 0 0 0)%Z).
  { unfold profit, unlimited. cbn [price_x1 price_x2 price_x3 price_x4].
    unfold z. lia. }
  rewrite Zlt_Qlt in HZ. lra.
Qed.

Lemma unlimited_answer_exact :
  exact_on (answer LpStatusUnbounded (plan 0 0 0 0))
           (problem unlimited (constant_table 0)).
Proof.
  split; cbn [answer fst snd].
  - discriminate.
  - intros _ Hb. exfalso. exact (unlimited_not_bounded Hb).
Qed.
End Status.

(** X4.  The failure line is printed whenever the problem has no
    optimum, not only when it is infeasible: if every feasible
    assignment is strictly beaten by another one (an unbounded
    problem), an exact solver cannot return status 1 and the report is
    the single line "No feasible solution found". *)
Theorem no_optimum_reports_failure
  (solve : LpProblem -> Z * assignment) (model : LpProblem) :
  exact_on solve model ->
  (forall a, feasible model a ->
             exists b, feasible model b /\ ~ no_better model b a) ->
  solve_and_report solve model = [Text "No feasible solution found"].
Proof.
  intros Hex Hbeat. apply report_failure_iff. intro Hst.
  destruct (optimum_returned _ _ Hex Hst) as [Hf Hopt].
  destruct (Hbeat _ Hf) as (b & Hb & Hnb).
  exact (Hnb (Hopt b Hb)).
Qed.

Lemma no_optimum_reports_failure_witness :
  feasible (problem unlimited (constant_table 0)) (plan 0 0 0 0) /\
  solve_and_report (answer LpStatusUnbounded (plan 0 0 0 0))
    (problem unlimited (constant_table 0)) =
  [Text "No feasible solution found"].
Proof.
  split.
  - apply feasible_plan, unlimited_admissible; lia.
  - apply (no_optimum_reports_failure _ _ unlimited_answer_exact).
    intros a Ha. apply feasible_iff in Ha.
    destruct Ha as (z1 & z2 & z3 & z4 & T & A).
    exists (plan (z1 + 1) z2 z3 z4). split.
    + apply feasible_plan, unlimited_admissible;
        unfold admissible in A; lia.
    + unfold no_better. cbn [problem sense].
      change (~ (objective_value (problem unlimited (constant_table 0))
                   (plan (z1 + 1) z2 z3 z4) <=
                 objective_value (problem unlimited (constant_table 0)) a)%Q).
      rewrite objective_plan, (objective_takes _ _ _ _ _ _ _ T).
      rewrite <- Zle_Qle. unfold profit, unlimited.
      cbn [price_x1 price_x2 price_x3 price_x4]. lia.
Defined.

Section Bounds.
Local Open Scope Q_scope.

Lemma admissible_smaller_table (K : Constants) (t t' : CoefficientTable)
  (z1 z2 z3 z4 : Z) :
  table_le t t' ->
  admissible K t' z1 z2 z3 z4 -> admissible K t z1 z2 z3 z4.
Proof.
  unfold table_le, admissible.
  intros (L1 & L2 & L3 & L4 & L5 & L6 & L7 & L8)
         (P1 & P2 & P3 & P4 & A1 & A2 & A3 & A4 & A5).
  pose proof (Z.mul_le_mono_nonneg_l _ _ z1 P1 L1).
  pose proof (Z.mul_le_mono_nonneg_l _ _ z2 P2 L2).
  pose proof (Z.mul_le_mono_nonneg_l _ _ z3 P3 L3).
  pose proof (Z.mul_le_mono_nonneg_l _ _ z4 P4 L4).
  pose proof (Z.mul_le_mono_nonneg_l _ _ z1 P1 L5).
  pose proof (Z.mul_le_mono_nonneg_l _ _ z2 P2 L6).
  pose proof (Z.mul_le_mono_nonneg_l _ _ z3 P3 L7).
  pose proof (Z.mul_le_mono_nonneg_l _ _ z4 P4 L8).
  repeat split; lia.
Qed.

(** What an exact solver returns, read as an integer plan. *)
Lemma solved_plan (solve : LpProblem -> Z * assignment)
  (K : Constants) (t : CoefficientTable) :
  exact_on solve (problem K t) ->
  fst (solve (problem K t)) = 1%Z ->
  exists z1 z2 z3 z4,
    takes (snd (solve (problem K t))) z1 z2 z3 z4 /\
    admissible K t z1 z2 z3 z4 /\
    forall y1 y2 y3 y4,
      admissible K t y1 y2 y3 y4 ->
      (profit K y1 y2 y3 y4 <= profit K z1 z2 z3 z4)%Z.
Proof.
  intros Hex Hst. destruct (optimum_returned _ _ Hex Hst) as [Hf Hopt].
  apply feasible_iff in Hf. destruct Hf as (z1 & z2 & z3 & z4 & T & A).
  exists z1, z2, z3, z4. split; [exact T|]. split; [exact A|].
  intros y1 y2 y3 y4 Ay.
  specialize (Hopt _ (feasible_plan _ _ _ _ _ _ Ay)).
  unfold no_better in Hopt. cbn [problem sense] in Hopt.
  change (objective_value (problem K t) (plan y1 y2 y3 y4) <=
          objective_value (problem K t) (snd (solve (problem K t))))
    in Hopt.
  rewrite objective_plan, (objective_takes _ _ _ _ _ _ _ T) in Hopt.
  rewrite <- Zle_Qle in Hopt. exact Hopt.
Qed.

Lemma drawn_between (G : BitGenerator) (g : rng G) :
  entries_between 1 10 (drawn G g).
Proof.
  unfold entries_between, drawn. cbn [cut_B_T cut_B_J cut_D_T cut_D_J
    sew_B_T sew_B_J sew_D_T sew_D_J].
  repeat split; apply entry_range; apply sample_at_range.
Qed.

(** With entries from 1 to 10 six pairs of jeans fit at each site. *)
Lemma six_jeans_admissible (t : CoefficientTable) :
  entries_between 1 10 t -> admissible literals t 0 6 0 6.
Proof.
  unfold entries_between, admissible, literals. cbn [cutting_Besiktas
    sewing_Besiktas cutting_Davutpasa sewing_Davutpasa cloth_per_unit
    cloth_supply]. lia.
Qed.
End Bounds.

(** X5.  With non-negative coefficients and all four capacities set to
    one value [c], the failure line is printed exactly when [c] is
    negative; for [c >= 0], zero included, the success report is
    printed. *)
Theorem failure_iff_negative_capacity
  (solve : LpProblem -> Z * assignment) (c : Z) (t : CoefficientTable) :
  table_le (constant_table 0) t ->
  exact_on solve (problem (with_capacities c) t) ->
  (solve_and_report solve (problem (with_capacities c) t) =
     [Text "No feasible solution found"] <-> c < 0) /\
  (List.length (solve_and_report solve (problem (with_capacities c) t))
     = 13%nat <-> 0 <= c).
Proof.
  intros Hpos Hex.
  assert (Hneg : c < 0 -> fst (solve (problem (with_capacities c) t)) <> 1).
  { intros Hc Hst.
    destruct (solved_plan _ _ _ Hex Hst) as (z1 & z2 & z3 & z4 & _ & A & _).
    apply (admissible_smaller_table _ _ _ _ _ _ _ Hpos) in A.
    revert A. unfold constant_table. numbers. lia. }
  assert (Hok : 0 <= c -> fst (solve (problem (with_capacities c) t)) = 1).
  { intro Hc. apply (optimum_found _ _ Hex).
    - exists (plan 0 0 0 0). apply feasible_plan.
      apply idle_admissible; cbn; lia.
    - apply (bounded_by _ _ 450). intros.
      eapply profit_capped; eassumption. }
  split.
  - rewrite report_failure_iff. split; [|exact Hneg].
    intro Hst. destruct (Z.lt_ge_cases c 0) as [L|L]; [exact L|].
    exfalso. exact (Hst (Hok L)).
  - unfold solve_and_report in *.
    destruct (solve (problem (with_capacities c) t)) as [st a].
    cbn [fst] in *. unfold cell10.
    destruct (Z.eqb_spec st 1) as [E|E]; cbn [List.length]; split.
    + intros _. destruct (Z.lt_ge_cases c 0) as [L|L]; [|exact L].
      exfalso. exact (Hneg L E).
    + reflexivity.
    + discriminate.
    + intro Hc. exfalso. exact (E (Hok Hc)).
Qed.

Lemma failure_iff_negative_capacity_witness :
  table_le (constant_table 0) recorded /\
  List.length
    (solve_and_report (exhaustive 30) (problem (with_capacities 0) recorded))
  = 13%nat.
Proof.
  assert (H : table_le (constant_table 0) recorded)
    by (unfold table_le; cbn; lia).
  split; [exact H|].
  apply (proj2 (failure_iff_negative_capacity (exhaustive 30) 0 recorded H
                  (exhaustive_exact_capacities 0 recorded))).
  lia.
Defined.

(** X6.  The two printed cloth figures are four times the printed
    utilisation of their site, they are non-negative, and together they
    never exceed the cloth supply of 120; hence the four printed
    quantities lie between 0 and 30. *)
Theorem cloth_figures_within_supply
  (solve : LpProblem -> Z * assignment) (t : CoefficientTable) :
  exact_on solve (problem literals t) ->
  let x n := snd (solve (problem literals t)) n in
  let out := solve_and_report solve (problem literals t) in
  figure "Cloths in Beşiktaş: " out
    = Some (4 * (x "x_1"%string + x "x_2"%string))%Q /\
  figure "Cloths in Davutpaşa: " out
    = Some (4 * (x "x_3"%string + x "x_4"%string))%Q /\
  (0 <= 4 * (x "x_1"%string + x "x_2"%string) /\
   0 <= 4 * (x "x_3"%string + x "x_4"%string) /\
   4 * (x "x_1"%string + x "x_2"%string)
   + 4 * (x "x_3"%string + x "x_4"%string) <= 120)%Q /\
  (0 <= x "x_1"%string <= 30 /\ 0 <= x "x_2"%string <= 30 /\
   0 <= x "x_3"%string <= 30 /\ 0 <= x "x_4"%string <= 30)%Q.
Proof.
  intros Hex x out. subst x out.
  pose proof (always_solved solve t Hex) as Hst.
  destruct (solved_plan _ _ _ Hex Hst)
    as (z1 & z2 & z3 & z4 & (T1 & T2 & T3 & T4) & A & _).
  unfold solve_and_report.
  destruct (solve (problem literals t)) as [st a]. cbn [fst snd] in *.
  subst st. split; [reflexivity|]. split; [reflexivity|].
  rewrite T1, T2, T3, T4.
  assert (B : 0 <= z1 <= 30 /\ 0 <= z2 <= 30 /\ 0 <= z3 <= 30 /\
              0 <= z4 <= 30 /\ 4 * (z1 + z2) + 4 * (z3 + z4) <= 120)
    by (revert A; numbers; lia).
  destruct B as ((L1 & U1) & (L2 & U2) & (L3 & U3) & (L4 & U4) & S).
  rewrite Zle_Qle in L1, U1, L2, U2, L3, U3, L4, U4, S.
  repeat (rewrite inject_Z_plus in S || rewrite inject_Z_mult in S).
  change (inject_Z 0) with 0%Q in *. change (inject_Z 30) with 30%Q in *.
  change (inject_Z 4) with 4%Q in S. change (inject_Z 120) with 120%Q in S.
  repeat split; lra.
Qed.

Lemma cloth_figures_within_supply_witness :
  figure "Cloths in Beşiktaş: "
    (solve_and_report (answer 1 (plan 0 6 1 8)) (problem literals recorded))
  = Some (4 * (plan 0 6 1 8 "x_1"%string + plan 0 6 1 8 "x_2"%string))%Q.
Proof.
  exact (proj1 (cloth_figures_within_supply (answer 1 (plan 0 6 1 8))
                  recorded recorded_answer_exact)).
Defined.

(** ** The whole run *)

(** X7.  Whatever the generator and the state it was left in, the
    notebook never raises; with an exact solver it prints the
    thirteen-line success report, never the failure line, and the
    profit on its last line is a multiple of 5 between 180 and 450. *)
Theorem run_reports_profit_in_range
  (G : BitGenerator) (solve : LpProblem -> Z * assignment)
  (format : Q -> string) (g0 : rng G) :
  exact_on solve (problem literals (drawn G (init_by_seed G 21506050))) ->
  exists (lines : list string) (p : Q),
    run G solve format g0 = Some lines /\
    List.length lines = 13%nat /\
    nth_error lines 0 = Some "Production Quantities:"%string /\
    nth_error lines 12 = Some ("Total profit: " ++ format p)%string /\
    (180 <= p /\ p <= 450)%Q /\
    exists k : Z, (p == inject_Z (5 * k))%Q.
Proof.
  intro Hex. set (t := drawn G (init_by_seed G 21506050)) in *.
  pose proof (always_solved solve t Hex) as Hst.
  destruct (solved_plan _ _ _ Hex Hst)
    as (z1 & z2 & z3 & z4 & T & A & Hbest).
  assert (R : run G solve format g0 =
              Some (map (print format)
                      (solve_and_report solve (problem literals t)))).
  { unfold run. rewrite coefficients_literal_seed. reflexivity. }
  rewrite R. clear R. unfold solve_and_report.
  destruct (solve (problem literals t)) as [st a]. cbn [fst snd] in *.
  subst st.
  exists (map (print format) (cell10 1 (problem literals t) a)),
         (objective_value (problem literals t) a).
  split; [reflexivity|]. split; [reflexivity|].
  split; [reflexivity|]. split; [reflexivity|].
  rewrite (objective_takes _ _ _ _ _ _ _ T).
  change 180%Q with (inject_Z 180). change 450%Q with (inject_Z 450).
  rewrite <- !Zle_Qle. split; [split|].
  - apply (Hbest 0 6 0 6), six_jeans_admissible, drawn_between.
  - apply (profit_capped_literals t), A.
  - exists (2 * z1 + 3 * z2 + 2 * z3 + 3 * z4).
    rewrite ?(objective_takes _ _ _ _ _ _ _ T), inject_Z_injective.
    unfold profit, literals. cbn [price_x1 price_x2 price_x3 price_x4]. lia.
Qed.

Lemma run_reports_profit_in_range_witness :
  exists (lines : list string) (p : Q),
    run (tape_generator (fun _ => recorded_tape)) (exhaustive 30)
      float_str [] = Some lines /\
    nth_error lines 12 = Some ("Total profit: " ++ float_str p)%string /\
    (180 <= p /\ p <= 450)%Q.
Proof.
  destruct (run_reports_profit_in_range
              (tape_generator (fun _ => recorded_tape)) (exhaustive 30)
              float_str [] (exhaustive_exact_literals _))
    as (lines & p & R & _ & _ & L & B & _).
  exists lines, p. split; [exact R|]. split; [exact L | exact B].
Defined.

(** The two bounds are met: with every entry 10 the best profit is 180,
    with every entry 1 it is 450. *)
Example profit_bounds_are_met :
  (forall z1 z2 z3 z4,
      admissible literals (constant_table 10) z1 z2 z3 z4 ->
      profit literals z1 z2 z3 z4 <= 180) /\
  admissible literals (constant_table 10) 0 6 0 6 /\
  profit literals 0 6 0 6 = 180 /\
  admissible literals (constant_table 1) 0 30 0 0 /\
  profit literals 0 30 0 0 = 450.
Proof.
  unfold constant_table. numbers. repeat apply conj; try reflexivity; lia.
Qed.

(** X8.  Needing more hours never raises the reported profit: if every
    entry of table [t] is at most the corresponding entry of [t'], the
    optimal profit reported for [t'] is at most the one reported for
    [t]. *)
Theorem profit_antitone_in_hours
  (solve : LpProblem -> Z * assignment) (t t' : CoefficientTable) :
  table_le t t' ->
  exact_on solve (problem literals t) ->
  exact_on solve (problem literals t') ->
  (objective_value (problem literals t')
     (snd (solve (problem literals t'))) <=
   objective_value (problem literals t)
     (snd (solve (problem literals t))))%Q.
Proof.
  intros Hle Hex Hex'.
  destruct (solved_plan _ _ _ Hex (always_solved _ _ Hex))
    as (z1 & z2 & z3 & z4 & T & _ & Hbest).
  destruct (solved_plan _ _ _ Hex' (always_solved _ _ Hex'))
    as (y1 & y2 & y3 & y4 & T' & A' & _).
  rewrite (objective_takes _ _ _ _ _ _ _ T).
  rewrite (objective_takes _ _ _ _ _ _ _ T').
  rewrite <- Zle_Qle. apply Hbest.
  exact (admissible_smaller_table _ _ _ _ _ _ _ Hle A').
Qed.

Lemma profit_antitone_in_hours_witness :
  table_le recorded (constant_table 10) /\
  (objective_value (problem literals (constant_table 10))
     (snd (exhaustive 30 (problem literals (constant_table 10)))) <=
   objective_value (problem literals recorded)
     (snd (exhaustive 30 (problem literals recorded))))%Q.
Proof.
  assert (H : table_le recorded (constant_table 10))
    by (unfold table_le; cbn; lia).
  split; [exact H|].
  exact (profit_antitone_in_hours (exhaustive 30) recorded (constant_table 10)
           H (exhaustive_exact_literals _) (exhaustive_exact_literals _)).
Defined.

(** ** NumPy: reshape and uniform *)

Section Arrays.
Local Open Scope list_scope.

Lemma chunks_shape {A : Type} (cols : nat) :
  forall (rows : nat) (a : list A),
    List.length a = (rows * cols)%nat ->
    List.length (chunks rows cols a) = rows /\
    Forall (fun r => List.length r = cols) (chunks rows cols a) /\
    List.concat (chunks rows cols a) = a.
Proof.
  induction rows as [|rows IH]; intros a Hlen; cbn [chunks].
  - cbn in Hlen. apply length_zero_iff_nil in Hlen. subst a.
    repeat split. constructor.
  - cbn [Nat.mul] in Hlen.
    destruct (IH (skipn cols a)) as (H1 & H2 & H3).
    { rewrite length_skipn. lia. }
    split; [cbn; rewrite H1; reflexivity|]. split.
    + constructor; [|exact H2]. rewrite length_firstn. lia.
    + cbn [List.concat]. rewrite H3. apply firstn_skipn.
Qed.
End Arrays.

(** X9.  [np.reshape] as the notebook uses it: when the array has
    rows * cols elements the result has that many rows, each of cols
    elements, and flattening it gives the array back; with any other
    length it raises (ValueError). *)
Theorem reshape_round_trip {A : Type} (a : list A) (rows cols : nat) :
  (List.length a = (rows * cols)%nat /\
   exists m, reshape a rows cols = Some m /\
             List.length m = rows /\
             Forall (fun r => List.length r = cols) m /\
             List.concat m = a) \/
  (List.length a <> (rows * cols)%nat /\ reshape a rows cols = None).
Proof.
  unfold reshape.
  destruct (Nat.eqb_spec (List.length a) (rows * cols)) as [E|E].
  - left. split; [exact E|]. exists (chunks rows cols a).
    split; [reflexivity | apply chunks_shape, E].
  - right. split; [exact E | reflexivity].
Qed.

(** X10.  [np.random.uniform(1, 10, size)], the call of cell 3, returns
    [size] doubles, one for each of the next [size] draws: each lies
    between 1 and 10, both included, and within 2^-49 of 1 + 9 x for
    its draw x; the generator is left advanced by exactly [size] draws.
    The upper bound is not excluded in general: with the bounds 1 and 2
    the largest draw, (2^53 - 1) / 2^53, gives 2. *)
Theorem uniform_within_bounds
  (G : BitGenerator) (size : nat) (g : rng G) :
  List.length (fst (uniform G 1 10 size g)) = size /\
  Forall2 (fun v x =>
             (1 <= v /\ v <= 10 /\
              1 + 9 * x - (1 # 562949953421312) <= v /\
              v <= 1 + 9 * x + (1 # 562949953421312))%Q)
          (fst (uniform G 1 10 size g))
          (map (sample_at G g) (seq 0 size)) /\
  snd (uniform G 1 10 size g) = advance G size g /\
  fst (uniform (tape_generator (fun _ => [])) 1 2 1 [9007199254740991]) =
  [2%Q].
Proof.
  rewrite uniform_samples. cbn [fst snd].
  split; [rewrite length_map, length_seq; reflexivity|].
  split; [|split; [reflexivity | vm_compute; reflexivity]].
  induction (seq 0 size) as [|i l IH]; cbn [map]; constructor.
  - destruct (sample_at_range G g i) as [Hlo Hhi].
    exact (scaled_draw (sample_at G g i) Hlo Hhi).
  - exact IH.
Qed.

(** X11.  Draws compose: a call of size n followed by a call of size m
    returns the same values, and leaves the same state, as one call of
    size n + m.  The two four-element draws of cell 3 are thus the two
    halves of a single eight-element draw. *)
Theorem uniform_splits
  (G : BitGenerator) (low high : Q) (n m : nat) (g : rng G) :
  uniform G low high (n + m) g =
  ((fst (uniform G low high n g)
    ++ fst (uniform G low high m (snd (uniform G low high n g))))%list,
   snd (uniform G low high m (snd (uniform G low high n g)))).
Proof.
  revert g. induction n as [|n IH]; intro g.
  - cbn [Nat.add uniform fst snd app].
    destruct (uniform G low high m g); reflexivity.
  - cbn [Nat.add uniform]. destruct (random_sample G g) as [x g1].
    rewrite IH. destruct (uniform G low high n g1) as [xs g2].
    cbn [fst snd]. destruct (uniform G low high m g2) as [ys g3].
    reflexivity.
Qed.

(** ** Rounding a draw to an entry *)

(** X12.  A table entry is the integer nearest to the double that
    [uniform] computes for its draw x, and that double is within 2^-49
    of the scaled draw 1 + 9 x; so the entry is at most 1/2 + 2^-49
    away from 1 + 9 x.  A larger draw never gives a smaller entry.  The
    excess over one half occurs: at the draw 8506799296144270 / 2^53
    the scaled draw is below 9.5, the double is 9.5, and the entry is
    10. *)
Theorem entry_nearest_and_monotone :
  (forall x : Q, (0 <= x)%Q -> (x < 1)%Q ->
     let u := fl (1 + fl (fl (10 - 1) * x)) in
     (inject_Z (entry x) - (1 # 2) <= u /\
      u <= inject_Z (entry x) + (1 # 2) /\
      1 + 9 * x - (1 # 562949953421312) <= u /\
      u <= 1 + 9 * x + (1 # 562949953421312) /\
      inject_Z (entry x) - (1 # 2) - (1 # 562949953421312) <= 1 + 9 * x /\
      1 + 9 * x <= inject_Z (entry x) + (1 # 2) + (1 # 562949953421312))%Q) /\
  (forall x y : Q, (0 <= x)%Q -> (x <= y)%Q -> (y < 1)%Q ->
     entry x <= entry y) /\
  (1 + 9 * (8506799296144270 # two53) < 19 # 2)%Q /\
  fl (1 + fl (fl (10 - 1) * (8506799296144270 # two53))) = (19 # 2)%Q /\
  entry (8506799296144270 # two53) = 10.
Proof.
  split; [|split; [exact entry_mono|
                   split; [reflexivity | split; vm_compute; reflexivity]]].
  intros x Hlo Hhi u.
  destruct (scaled_draw x Hlo Hhi) as (_ & _ & L & U). fold u in L, U.
  unfold entry. fold u.
  destruct (round_near u) as (v & E & V1 & V2).
  rewrite E, astype_int_inject.
  repeat split; lra.
Qed.

Lemma entry_nearest_and_monotone_witness :
  (0 <= 4503599627370496 # two53)%Q /\
  (4503599627370496 # two53 <= 4503599627370497 # two53)%Q /\
  (4503599627370497 # two53 < 1)%Q /\
  entry (4503599627370496 # two53) <= entry (4503599627370497 # two53).
Proof.
  assert (H0 : (0 <= 4503599627370496 # two53)%Q) by discriminate.
  assert (H1 : (4503599627370496 # two53 <= 4503599627370497 # two53)%Q)
    by discriminate.
  assert (H2 : (4503599627370497 # two53 < 1)%Q) by reflexivity.
  split; [exact H0|]. split; [exact H1|]. split; [exact H2|].
  exact (proj1 (proj2 entry_nearest_and_monotone) _ _ H0 H1 H2).
Defined.

(** ** How often each entry is drawn *)

(** X17.  Of the 2^53 equally likely draws k / 2^53 of [random_sample],
    500399958596722 give the entry 1 and as many give 10, while each of
    2 .. 9 is given by between 1000799917193442 and 1000799917193445
    draws: the two end values are half as likely as any other. *)
Theorem entry_distribution :
  outcomes two53 1 = 500399958596722 /\
  outcomes two53 10 = 500399958596722 /\
  (forall v : Z, 2 <= v <= 9 ->
     1000799917193442 <= outcomes two53 v <= 1000799917193445) /\
  outcomes two53 1 + outcomes two53 2 + outcomes two53 3
  + outcomes two53 4 + outcomes two53 5 + outcomes two53 6
  + outcomes two53 7 + outcomes two53 8 + outcomes two53 9
  + outcomes two53 10 = Zpos two53.
Proof.
  destruct outcomes_two53
    as (E1 & E2 & E3 & E4 & E5 & E6 & E7 & E8 & E9 & E10).
  apply conj; [exact E1|]. apply conj; [exact E10|].
  apply conj.
  - intros v Hv.
    assert (C : v = 2 \/ v = 3 \/ v = 4 \/ v = 5 \/ v = 6 \/ v = 7 \/
                v = 8 \/ v = 9) by lia.
    destruct C as [C|[C|[C|[C|[C|[C|[C|C]]]]]]]; subst v;
      [rewrite E2|rewrite E3|rewrite E4|rewrite E5|rewrite E6|rewrite E7
      |rewrite E8|rewrite E9]; lia.
  - rewrite E1, E2, E3, E4, E5, E6, E7, E8, E9, E10. reflexivity.
Qed.

Lemma entry_distribution_witness :
  1000799917193442 <= outcomes two53 5 <= 1000799917193445.
Proof.
  exact (proj1 (proj2 (proj2 entry_distribution)) 5 ltac:(lia)).
Defined.

(** ** Running cell 3 again *)

(** X13.  Cell 3 consumes exactly eight draws.  Run a second time
    without cell 2 in between, it does not repeat its table: it builds
    the frame from draws 8 to 15 of the same stream and leaves the
    generator sixteen draws on. *)
Theorem cell3_again_continues_stream (G : BitGenerator) (g : rng G) :
  (let? (_, g1) := cell3 G g in cell3 G g1) =
  Some (hours_frame
          [entry (sample_at G g 8); entry (sample_at G g 9);
           entry (sample_at G g 12); entry (sample_at G g 13)]
          [entry (sample_at G g 10); entry (sample_at G g 11);
           entry (sample_at G g 14); entry (sample_at G g 15)],
        advance G 16 g).
Proof.
  rewrite cell3_frame. cbn [obind]. rewrite cell3_frame. reflexivity.
Qed.


(** ** pandas: looking up the joined frame *)

Section Joined.
Local Open Scope list_scope.

Lemma series_get_app (s1 s2 : Series) (c : label) :
  series_get (s1 ++ s2) c =
  match series_get s1 c with
  | Some v => Some v
  | None => series_get s2 c
  end.
Proof.
  induction s1 as [|[l v] s1 IH]; cbn [app series_get]; [reflexivity|].
  destruct (label_eqb l c); [reflexivity | exact IH].
Qed.

Lemma combine_app_same {A B : Type} (l1 l2 : list A) (r1 r2 : list B) :
  List.length r1 = List.length l1 ->
  combine (l1 ++ l2) (r1 ++ r2) = combine l1 r1 ++ combine l2 r2.
Proof.
  revert r1. induction l1 as [|a l1 IH]; intros [|b r1] H; cbn in *;
    try reflexivity; try discriminate.
  f_equal. apply IH. lia.
Qed.

Lemma loc_rows_joined (ca cb : list label) (r : string) (c : label) :
  forall (idx : list string) (va vb : list (list Z)),
    List.length va = List.length vb ->
    Forall (fun row => List.length row = List.length ca) va ->
    (let? row := row_get (combine idx (map (combine (ca ++ cb))
                                         (zip_app va vb))) r in
     series_get row c) =
    match (let? row := row_get (combine idx (map (combine ca) va)) r in
           series_get row c) with
    | Some v => Some v
    | None => let? row := row_get (combine idx (map (combine cb) vb)) r in
              series_get row c
    end.
Proof.
  induction idx as [|l idx IH]; intros va vb Hlen Hall; [reflexivity|].
  destruct va as [|ra va], vb as [|rb vb]; try discriminate; [reflexivity|].
  inversion Hall as [|? ? Hra Hva]; subst.
  cbn [zip_app map combine row_get].
  destruct (String.eqb l r).
  - cbn [obind]. rewrite combine_app_same by exact Hra.
    apply series_get_app.
  - apply IH; [cbn in Hlen; lia | exact Hva].
Qed.
End Joined.

(** X14.  A lookup in the frame joined by [pd.concat(axis = 1)]: for
    two frames with the same row labels and disjoint column labels, an
    entry of the first frame is found under its own label and every
    other label is looked up in the second frame.  The site level of
    the labels is what keeps Beşiktaş's and Davutpaşa's columns apart. *)
Theorem loc_in_joined_frame (a b : DataFrame) (r : string) (c : label) :
  index a = index b ->
  NoDup (columns a ++ columns b) ->
  List.length (values a) = List.length (values b) ->
  Forall (fun row => List.length row = List.length (columns a)) (values a) ->
  loc (concat_axis1 a b) r c =
  match loc a r c with
  | Some v => Some v
  | None => loc b r c
  end.
Proof.
  intros Hidx _ Hlen Hall. unfold loc, iterrows, concat_axis1.
  cbn [index columns values]. rewrite <- Hidx.
  apply loc_rows_joined; assumption.
Qed.

Lemma loc_in_joined_frame_witness :
  loc (concat_axis1
         (with_site Besiktas (mk_frame [[10; 4]; [9; 10]] products processes))
         (with_site Davutpasa (mk_frame [[2; 7]; [7; 8]] products processes)))
      "Sewing" (Davutpasa, "Jeans"%string) = Some 8.
Proof.
  rewrite loc_in_joined_frame.
  - reflexivity.
  - reflexivity.
  - repeat constructor; cbn; intuition discriminate.
  - reflexivity.
  - repeat constructor.
Defined.

(** X15.  More capacity never lowers the reported profit: with all four
    capacities at [c], respectively at a larger [c'], and non-negative
    [c], the optimal profit for [c] is at most the one for [c']. *)
Theorem profit_monotone_in_capacity
  (solve : LpProblem -> Z * assignment) (c c' : Z) (t : CoefficientTable) :
  0 <= c -> c <= c' ->
  exact_on solve (problem (with_capacities c) t) ->
  exact_on solve (problem (with_capacities c') t) ->
  (objective_value (problem (with_capacities c) t)
     (snd (solve (problem (with_capacities c) t))) <=
   objective_value (problem (with_capacities c') t)
     (snd (solve (problem (with_capacities c') t))))%Q.
Proof.
  intros Hc Hcc Hex Hex'.
  assert (Hst : forall d, 0 <= d ->
            exact_on solve (problem (with_capacities d) t) ->
            fst (solve (problem (with_capacities d) t)) = 1).
  { intros d Hd Hx. apply (optimum_found _ _ Hx).
    - exists (plan 0 0 0 0). apply feasible_plan.
      apply idle_admissible; cbn; lia.
    - apply (bounded_by _ _ 450). intros.
      eapply profit_capped; eassumption. }
  destruct (solved_plan _ _ _ Hex (Hst c Hc Hex))
    as (z1 & z2 & z3 & z4 & T & A & _).
  destruct (solved_plan _ _ _ Hex' (Hst c' ltac:(lia) Hex'))
    as (y1 & y2 & y3 & y4 & T' & _ & Hbest).
  rewrite (objective_takes _ _ _ _ _ _ _ T).
  rewrite (objective_takes _ _ _ _ _ _ _ T').
  rewrite <- Zle_Qle.
  change (profit (with_capacities c) z1 z2 z3 z4)
    with (profit (with_capacities c') z1 z2 z3 z4).
  apply Hbest. revert A. numbers. lia.
Qed.

Lemma profit_monotone_in_capacity_witness :
  (objective_value (problem (with_capacities 0) recorded)
     (snd (exhaustive 30 (problem (with_capacities 0) recorded))) <=
   objective_value (problem (with_capacities 60) recorded)
     (snd (exhaustive 30 (problem (with_capacities 60) recorded))))%Q.
Proof.
  exact (profit_monotone_in_capacity (exhaustive 30) 0 60 recorded
           ltac:(lia) ltac:(lia)
           (exhaustive_exact_capacities 0 recorded)
           (exhaustive_exact_capacities 60 recorded)).
Defined.

(** X16.  With table entries from 1 to 10, as the generator produces
    them, each printed utilisation figure understates the hours the
    plan really takes: the unweighted sum of a site's quantities is at
    most the hours used in cutting, and in sewing, at that site, which
    in turn are within the capacities 80, 60, 60 and 75. *)
Theorem printed_utilisation_understates_hours
  (solve : LpProblem -> Z * assignment) (t : CoefficientTable) :
  entries_between 1 10 t ->
  exact_on solve (problem literals t) ->
  let x n := snd (solve (problem literals t)) n in
  let out := solve_and_report solve (problem literals t) in
  exists u_B u_D : Q,
    figure "Cutting in Beşiktaş: " out = Some u_B /\
    figure "Sewing in Beşiktaş: " out = Some u_B /\
    figure "Cutting in Davutpaşa: " out = Some u_D /\
    figure "Sewing in Davutpaşa: " out = Some u_D /\
    (u_B <= inject_Z (cut_B_T t) * x "x_1"%string
            + inject_Z (cut_B_J t) * x "x_2"%string <= 80 /\
     u_B <= inject_Z (sew_B_T t) * x "x_1"%string
            + inject_Z (sew_B_J t) * x "x_2"%string <= 60 /\
     u_D <= inject_Z (cut_D_T t) * x "x_3"%string
            + inject_Z (cut_D_J t) * x "x_4"%string <= 60 /\
     u_D <= inject_Z (sew_D_T t) * x "x_3"%string
            + inject_Z (sew_D_J t) * x "x_4"%string <= 75)%Q.
Proof.
  intros Hrange Hex x out. subst x out.
  pose proof (always_solved solve t Hex) as Hst.
  destruct (solved_plan _ _ _ Hex Hst)
    as (z1 & z2 & z3 & z4 & (T1 & T2 & T3 & T4) & A & _).
  unfold solve_and_report.
  destruct (solve (problem literals t)) as [st a]. cbn [fst snd] in *.
  subst st.
  exists (a "x_1"%string + a "x_2"%string)%Q,
         (a "x_3"%string + a "x_4"%string)%Q.
  split; [reflexivity|]. split; [reflexivity|].
  split; [reflexivity|]. split; [reflexivity|].
  rewrite T1, T2, T3, T4.
  change 80%Q with (inject_Z 80). change 60%Q with (inject_Z 60).
  change 75%Q with (inject_Z 75).
  repeat (rewrite <- inject_Z_mult || rewrite <- inject_Z_plus).
  rewrite <- !Zle_Qle.
  unfold entries_between in Hrange. unfold admissible in A.
  cbn [literals cutting_Besiktas sewing_Besiktas cutting_Davutpasa
       sewing_Davutpasa cloth_per_unit cloth_supply] in A.
  destruct Hrange as (R1 & R2 & R3 & R4 & R5 & R6 & R7 & R8).
  destruct A as (P1 & P2 & P3 & P4 & A1 & A2 & A3 & A4 & A5).
  assert (M : forall c z : Z, 1 <= c -> 0 <= z -> z <= c * z) by (intros; nia).
  pose proof (M _ _ (proj1 R1) P1). pose proof (M _ _ (proj1 R2) P2).
  pose proof (M _ _ (proj1 R3) P3). pose proof (M _ _ (proj1 R4) P4).
  pose proof (M _ _ (proj1 R5) P1). pose proof (M _ _ (proj1 R6) P2).
  pose proof (M _ _ (proj1 R7) P3). pose proof (M _ _ (proj1 R8) P4).
  repeat split; lia.
Qed.

Lemma printed_utilisation_understates_hours_witness :
  entries_between 1 10 recorded /\
  exists u_B u_D : Q,
    figure "Cutting in Beşiktaş: "
      (solve_and_report (answer 1 (plan 0 6 1 8))
         (problem literals recorded)) = Some u_B /\
    figure "Cutting in Davutpaşa: "
      (solve_and_report (answer 1 (plan 0 6 1 8))
         (problem literals recorded)) = Some u_D.
Proof.
  assert (H : entries_between 1 10 recorded)
    by (unfold entries_between; cbn; lia).
  split; [exact H|].
  destruct (printed_utilisation_understates_hours
              (answer 1 (plan 0 6 1 8)) recorded H recorded_answer_exact)
    as (u_B & u_D & F1 & _ & F3 & _).
  exists u_B, u_D. split; [exact F1 | exact F3].
Defined.
